(** * Stopwatch core of [src/App.tsx]: formatter, target evaluator, engine,
      split recorder and statistics.

    Number model.  A TypeScript [number] is an IEEE double.  Every value the
    stopwatch derives from its counters ([time], [lastSplitTime.current],
    [duration], [Date.now()]) is an integer, and integers below 2^53 are
    exact in a double, so they are carried as [Z].  The only non-integers
    are lap averages ([sum / length]), carried as exact rationals [Q].  The
    one place a [NaN] is produced is [parseInt], whose results are carried
    as [number] ([Num z] or [NaN]). *)

From Stdlib Require Import ZArith QArith Qround Lia List Bool.
From Stdlib Require Import Ascii String DecimalString.
From Stdlib Require DecimalPos.
Import ListNotations.

Local Open Scope Z_scope.

(** ** JavaScript numbers that may be [NaN] *)

Inductive number : Type :=
| Num (z : Z)
| NaN.

Module JS.

(** [a + b] and [a * b]: [NaN] is absorbing. *)
Definition add (a b : number) : number :=
  match a, b with
  | Num x, Num y => Num (x + y)
  | _, _ => NaN
  end.

Definition mul (a b : number) : number :=
  match a, b with
  | Num x, Num y => Num (x * y)
  | _, _ => NaN
  end.

(** [a > b], [a >= b], [a < b]: every comparison with [NaN] is false. *)
Definition gt (a b : number) : bool :=
  match a, b with
  | Num x, Num y => y <? x
  | _, _ => false
  end.

Definition ge (a b : number) : bool :=
  match a, b with
  | Num x, Num y => y <=? x
  | _, _ => false
  end.

Definition lt (a b : number) : bool :=
  match a, b with
  | Num x, Num y => x <? y
  | _, _ => false
  end.

(** *** [parseInt(string)] with the radix left undefined *)

(** ASCII members of the specification's white space and line
    terminators: TAB, LF, VT, FF, CR, SP. *)
Definition isWhiteSpace (c : ascii) : bool :=
  let n := N_of_ascii c in
  ((9 <=? n) && (n <=? 13) || (n =? 32))%N.

Fixpoint trimStart (s : string) : string :=
  match s with
  | String c r => if isWhiteSpace c then trimStart r else s
  | EmptyString => s
  end.

(** Value of [c] as a digit: 0-9, a-z and A-Z count 10 to 35. *)
Definition digitValue (c : ascii) : option Z :=
  let n := Z.of_N (N_of_ascii c) in
  if (48 <=? n) && (n <=? 57) then Some (n - 48)
  else if (97 <=? n) && (n <=? 122) then Some (n - 87)
  else if (65 <=? n) && (n <=? 90) then Some (n - 55)
  else None.

(** The longest prefix of [s] made of digits of radix [R]. *)
Fixpoint radixDigits (R : Z) (s : string) : list Z :=
  match s with
  | String c r =>
      match digitValue c with
      | Some d => if d <? R then d :: radixDigits R r else []
      | None => []
      end
  | EmptyString => []
  end.

Definition digitsValue (R : Z) (ds : list Z) : Z :=
  fold_left (fun acc d => acc * R + d) ds 0.

Definition parseInt (input : string) : number :=
  let inputString := trimStart input in
  let '(sign, unsigned) :=
    match inputString with
    | String "-"%char r => (-1, r)
    | String "+"%char r => (1, r)
    | _ => (1, inputString)
    end in
  let '(R, body) :=
    match unsigned with
    | String "0"%char (String "x"%char r) => (16, r)
    | String "0"%char (String "X"%char r) => (16, r)
    | _ => (10, unsigned)
    end in
  match radixDigits R body with
  | [] => NaN
  | ds => Num (sign * digitsValue R ds)
  end.

(** *** [Number.prototype.toString] on integers, [String.prototype.padStart] *)

Definition toString (z : Z) : string :=
  NilZero.string_of_int (Z.to_int z).

Fixpoint repeatString (n : nat) (s : string) : string :=
  match n with
  | O => EmptyString
  | S k => s ++ repeatString k s
  end.

(** [s.padStart(targetLength, padString)]: [s] itself when it is long
    enough or [padString] is empty, otherwise [padString] repeated and cut
    to the missing length, then [s]. *)
Definition padStart (targetLength : nat) (padString : string) (s : string) : string :=
  let fillLen := (targetLength - String.length s)%nat in
  match padString with
  | EmptyString => s
  | _ => substring 0 fillLen (repeatString fillLen padString) ++ s
  end.

(** *** [%] and [Math.floor] on rationals *)

(** Rounding toward zero. *)
Definition Qtrunc (q : Q) : Z :=
  if Qle_bool 0 q then Qfloor q else Qceiling q.

(** [a % b]: the remainder has the sign of the dividend. *)
Definition rem (a b : Q) : Q :=
  (a - b * inject_Z (Qtrunc (a / b)))%Q.

End JS.

(** ** Data model (lines 5-16) *)

Module SplitTime.
Record t : Type := mk {
  id : Z;
  time : string;
  duration : Z;
  lap : string
}.
End SplitTime.

Module Target.
Record t : Type := mk { hours : string; minutes : string; seconds : string }.
End Target.

(** ** Time Formatter (lines 28-40) *)

Module Formatted.
Record t : Type := mk {
  hours : string;
  minutes : string;
  seconds : string;
  milliseconds : string
}.
End Formatted.

(** The four [Math.floor] results of lines 29-32. *)
Record TimeFields : Type := mkFields {
  f_hours : Z;
  f_minutes : Z;
  f_seconds : Z;
  f_milliseconds : Z
}.

Definition timeFields (ms : Q) : TimeFields :=
  {| f_hours := Qfloor (ms / 3600000);
     f_minutes := Qfloor (JS.rem ms 3600000 / 60000);
     f_seconds := Qfloor (JS.rem ms 60000 / 1000);
     f_milliseconds := Qfloor (JS.rem ms 1000 / 10) |}.

(** [n.toString().padStart(2, '0')] of lines 35-38. *)
Definition pad2 (z : Z) : string := JS.padStart 2 "0" (JS.toString z).

Definition formatTime (ms : Q) : Formatted.t :=
  let f := timeFields ms in
  {| Formatted.hours := pad2 (f_hours f);
     Formatted.minutes := pad2 (f_minutes f);
     Formatted.seconds := pad2 (f_seconds f);
     Formatted.milliseconds := pad2 (f_milliseconds f) |}.

(** The template literal of lines 108-109. *)
Definition label (f : Formatted.t) : string :=
  Formatted.hours f ++ ":" ++ Formatted.minutes f ++ ":" ++
  Formatted.seconds f ++ "." ++ Formatted.milliseconds f.

(** ** Statistics Calculator (lines 42-55) *)

Module Stats.
Record t : Type := mk {
  average : Formatted.t;
  best : Formatted.t;
  worst : Formatted.t
}.
End Stats.

(** [lapTimes.reduce((a, b) => a + b, 0)]. *)
Definition sumLaps (lapTimes : list Z) : Z :=
  fold_left (fun a b => a + b) lapTimes 0.

(** [sum / lapTimes.length]: the quotient is not rounded to an integer.
    [calculateStats] divides only by a positive length. *)
Definition avgLap (lapTimes : list Z) : Q :=
  (inject_Z (sumLaps lapTimes) / inject_Z (Z.of_nat (List.length lapTimes)))%Q.

(** [Math.min(x, ...xs)] and [Math.max(x, ...xs)] on at least one
    argument. *)
Definition Math_min (x : Z) (xs : list Z) : Z := fold_left Z.min xs x.
Definition Math_max (x : Z) (xs : list Z) : Z := fold_left Z.max xs x.

(** The [[]] branch is the early [return null] of line 43; past it
    [lapTimes] has a first element. *)
Definition calculateStats (splits : list SplitTime.t) : option Stats.t :=
  match map SplitTime.duration splits with
  | [] => None
  | d :: ds =>
      let lapTimes := d :: ds in
      Some {| Stats.average := formatTime (avgLap lapTimes);
              Stats.best := formatTime (inject_Z (Math_min d ds));
              Stats.worst := formatTime (inject_Z (Math_max d ds)) |}
  end.

(** ** Target Evaluator (lines 63-66) *)

Definition targetMs (target : Target.t) : number :=
  JS.add
    (JS.add (JS.mul (JS.parseInt (Target.hours target)) (Num 3600000))
            (JS.mul (JS.parseInt (Target.minutes target)) (Num 60000)))
    (JS.mul (JS.parseInt (Target.seconds target)) (Num 1000)).

(** The condition of line 66. *)
Definition alertCondition (targetMs : number) (prevTime newTime : Z) : bool :=
  JS.gt targetMs (Num 0) && JS.ge (Num newTime) targetMs
  && JS.lt (Num prevTime) targetMs.

(** ** Component state (lines 19-26)

    [keydown] is the render whose handlers the registered [keydown]
    listener holds: the effect of lines 76-90 re-registers the listener
    only when [isRunning] changes, so between two such changes the listener
    keeps calling the [handleSplit] of an earlier render, which sees that
    render's [time]. The buttons (lines 263-283) always get the handlers of
    the latest render. [lastSplitTime] is a ref: every closure reads and
    writes the one current value. *)

Record Render : Type := mkRender {
  r_time : Z;
  r_isRunning : bool
}.

Record State : Type := mkState {
  time : Z;
  isRunning : bool;
  splits : list SplitTime.t;
  target : Target.t;
  lastSplitTime : Z;
  keydown : Render
}.

Definition render (st : State) : Render :=
  {| r_time := time st; r_isRunning := isRunning st |}.

Definition noTarget : Target.t :=
  {| Target.hours := "00"; Target.minutes := "00"; Target.seconds := "00" |}.

(** State after the first render and its effects. *)
Definition initial : State :=
  {| time := 0; isRunning := false; splits := []; target := noTarget;
     lastSplitTime := 0;
     keydown := {| r_time := 0; r_isRunning := false |} |}.

(** ** Handlers *)

(** Lines 92-94. *)
Definition handleStartStop (r : Render) (st : State) : State :=
  {| time := time st; isRunning := negb (r_isRunning r);
     splits := splits st; target := target st;
     lastSplitTime := lastSplitTime st; keydown := keydown st |}.

(** Lines 96-101. *)
Definition handleReset (st : State) : State :=
  {| time := 0; isRunning := false; splits := []; target := target st;
     lastSplitTime := 0; keydown := keydown st |}.

(** Lines 103-120; [now] is the value [Date.now()] returns. *)
Definition handleSplit (r : Render) (now : Z) (st : State) : State :=
  if r_isRunning r then
    let currentSplit := r_time r - lastSplitTime st in
    let formattedTime := formatTime (inject_Z (r_time r)) in
    let formattedSplit := formatTime (inject_Z currentSplit) in
    let timeString := label formattedTime in
    let lapString := label formattedSplit in
    {| time := time st; isRunning := isRunning st;
       splits := splits st ++
                 [ {| SplitTime.id := now; SplitTime.time := timeString;
                      SplitTime.duration := currentSplit;
                      SplitTime.lap := lapString |} ];
       target := target st;
       lastSplitTime := r_time r; keydown := keydown st |}
  else st.

(** The interval callback of lines 60-71; the interval exists only while
    [isRunning] (line 59). The boolean tells whether the audio is played. *)
Definition tick (st : State) : State * bool :=
  if isRunning st then
    let prevTime := time st in
    let newTime := prevTime + 10 in
    ({| time := newTime; isRunning := isRunning st; splits := splits st;
        target := target st; lastSplitTime := lastSplitTime st;
        keydown := keydown st |},
     alertCondition (targetMs (target st)) prevTime newTime)
  else (st, false).

(** The [onChange] handlers of lines 219, 230 and 241. *)
Inductive Field : Type := Hours | Minutes | Seconds.

Definition setTarget (f : Field) (value : string) (st : State) : State :=
  let v := JS.padStart 2 "0" value in
  let t := target st in
  let t' :=
    match f with
    | Hours => {| Target.hours := v; Target.minutes := Target.minutes t;
                  Target.seconds := Target.seconds t |}
    | Minutes => {| Target.hours := Target.hours t; Target.minutes := v;
                    Target.seconds := Target.seconds t |}
    | Seconds => {| Target.hours := Target.hours t;
                    Target.minutes := Target.minutes t; Target.seconds := v |}
    end in
  {| time := time st; isRunning := isRunning st; splits := splits st;
     target := t'; lastSplitTime := lastSplitTime st; keydown := keydown st |}.

(** The effect of lines 76-90, run after the render that follows an
    update: a new listener is registered when [isRunning] changed. *)
Definition keydownEffect (before after : State) : State :=
  if Bool.eqb (isRunning before) (isRunning after) then after
  else {| time := time after; isRunning := isRunning after;
          splits := splits after; target := target after;
          lastSplitTime := lastSplitTime after; keydown := render after |}.

(** ** Events *)

Inductive Event : Type :=
| Tick
| ClickStartStop
| ClickSplit (now : Z)
| ClickReset
| KeySpace
| KeyS (now : Z)
| KeyR
| ChangeTarget (f : Field) (value : string).

Definition step (st : State) (e : Event) : State * bool :=
  match e with
  | Tick => tick st
  | ClickStartStop => (keydownEffect st (handleStartStop (render st) st), false)
  | ClickSplit now => (keydownEffect st (handleSplit (render st) now st), false)
  | ClickReset => (keydownEffect st (handleReset st), false)
  | KeySpace => (keydownEffect st (handleStartStop (keydown st) st), false)
  | KeyS now => (keydownEffect st (handleSplit (keydown st) now st), false)
  | KeyR => (keydownEffect st (handleReset st), false)
  | ChangeTarget f value => (setTarget f value st, false)
  end.

Fixpoint run (st : State) (es : list Event) : State :=
  match es with
  | [] => st
  | e :: rest => run (fst (step st e)) rest
  end.

(** Number of times the audio is played along [es]. *)
Fixpoint alertCount (st : State) (es : list Event) : nat :=
  match es with
  | [] => O
  | e :: rest =>
      ((if snd (step st e) then 1 else 0) + alertCount (fst (step st e)) rest)%nat
  end.

Definition reachable (st : State) : Prop :=
  exists es, st = run initial es.

Definition durations (st : State) : list Z :=
  map SplitTime.duration (splits st).

(** * Vocabulary of the statements *)

(** Digit values of a decimal numeral, most significant first. *)
Fixpoint uintDigits (u : Decimal.uint) : list Z :=
  match u with
  | Decimal.Nil => []
  | Decimal.D0 r => 0 :: uintDigits r
  | Decimal.D1 r => 1 :: uintDigits r
  | Decimal.D2 r => 2 :: uintDigits r
  | Decimal.D3 r => 3 :: uintDigits r
  | Decimal.D4 r => 4 :: uintDigits r
  | Decimal.D5 r => 5 :: uintDigits r
  | Decimal.D6 r => 6 :: uintDigits r
  | Decimal.D7 r => 7 :: uintDigits r
  | Decimal.D8 r => 8 :: uintDigits r
  | Decimal.D9 r => 9 :: uintDigits r
  end.

(** The numeral [toString] prints for a non-negative integer. *)
Definition numeral (z : Z) : Decimal.uint :=
  match z with
  | Zpos p => Pos.to_uint p
  | _ => Decimal.zero
  end.

(** Milliseconds denoted by the four fields. *)
Definition fieldsMs (f : TimeFields) : Z :=
  f_hours f * 3600000 + f_minutes f * 60000 + f_seconds f * 1000
  + f_milliseconds f * 10.

Definition fieldsInRange (f : TimeFields) : Prop :=
  0 <= f_hours f /\ 0 <= f_minutes f <= 59 /\ 0 <= f_seconds f <= 59
  /\ 0 <= f_milliseconds f <= 99.

(** [s] has at least two characters and reads back as [z]. *)
Definition renders (z : Z) (s : string) : Prop :=
  (2 <= String.length s)%nat /\ JS.parseInt s = Num z.

Definition rendersFields (f : TimeFields) (t : Formatted.t) : Prop :=
  renders (f_hours f) (Formatted.hours t)
  /\ renders (f_minutes f) (Formatted.minutes t)
  /\ renders (f_seconds f) (Formatted.seconds t)
  /\ renders (f_milliseconds f) (Formatted.milliseconds t).

Definition keepsTarget (e : Event) : bool :=
  match e with
  | ChangeTarget _ _ => false
  | _ => true
  end.

Definition isReset (e : Event) : bool :=
  match e with
  | ClickReset | KeyR => true
  | _ => false
  end.

(** Events of one run: no reset and no edit of the target. *)
Definition keepsRun (e : Event) : bool :=
  keepsTarget e && negb (isReset e).

(** A stopwatch started with target 00:00:05 and left to tick. *)
Definition fiveSeconds : Target.t :=
  {| Target.hours := "00"; Target.minutes := "00"; Target.seconds := "05" |}.

Definition startedWith (t : Target.t) : State :=
  {| time := 0; isRunning := true; splits := []; target := t;
     lastSplitTime := 0;
     keydown := {| r_time := 0; r_isRunning := true |} |}.

(** The threshold as the specification words it: a field that does not
    parse counts for 0. *)
Definition fieldOrZero (n : number) : Z :=
  match n with
  | Num z => z
  | NaN => 0
  end.

Definition specTargetMs (t : Target.t) : number :=
  Num (fieldOrZero (JS.parseInt (Target.hours t)) * 3600000
       + fieldOrZero (JS.parseInt (Target.minutes t)) * 60000
       + fieldOrZero (JS.parseInt (Target.seconds t)) * 1000).

(** What typing ".5" in the minutes box and "5" in the seconds box stores. *)
Definition halfMinute : Target.t :=
  target (run initial [ChangeTarget Minutes ".5"; ChangeTarget Seconds "5"]).

(** The keydown listener always holds the current [isRunning]; while
    running, the [time] it holds is the one of the render that started the
    run, never ahead of the counter. *)
Record Coherent (st : State) : Prop := mkCoherent {
  listener_isRunning : r_isRunning (keydown st) = isRunning st;
  listener_time : isRunning st = true -> 0 <= r_time (keydown st) <= time st;
  time_nonneg : 0 <= time st;
  lastSplit_bounds : 0 <= lastSplitTime st <= time st
}.

(** A run paused after one split. *)
Definition pausedAfterSplit : list Event :=
  [ClickStartStop; Tick; Tick; Tick; ClickSplit 1700000000000; KeySpace].

Definition isKeySplit (e : Event) : bool :=
  match e with
  | KeyS _ => true
  | _ => false
  end.

(** Successive differences of [ts], starting from [prev]. *)
Fixpoint diffs (prev : Z) (ts : list Z) : list Z :=
  match ts with
  | [] => []
  | t :: rest => (t - prev) :: diffs t rest
  end.

(** Value of [time] at each click on Split that finds the stopwatch
    running. *)
Fixpoint clickSplitTimes (st : State) (es : list Event) : list Z :=
  match es with
  | [] => []
  | e :: rest =>
      match e with
      | ClickSplit _ => if isRunning st then [time st] else []
      | _ => []
      end ++ clickSplitTimes (fst (step st e)) rest
  end.

Definition clock : Z := 1700000000000.

(** Start, 150 ticks, then one split. *)
Definition splitAt1500 (split : Event) : list Event :=
  ClickStartStop :: repeat Tick 150 ++ [split].

Definition ids (st : State) : list Z := map SplitTime.id (splits st).

(** The [Date.now()] readings of the splits that are recorded along [es]:
    those whose handler sees [isRunning]. *)
Fixpoint splitReadings (st : State) (es : list Event) : list Z :=
  match es with
  | [] => []
  | e :: rest =>
      match e with
      | ClickSplit now => if isRunning st then [now] else []
      | KeyS now => if r_isRunning (keydown st) then [now] else []
      | _ => []
      end ++ splitReadings (fst (step st e)) rest
  end.

(** Three splits with laps 100, 300 and 200 ms. *)
Definition threeLaps : list SplitTime.t :=
  [ SplitTime.mk clock "00:00:00.10" 100 "00:00:00.10";
    SplitTime.mk (clock + 300) "00:00:00.40" 300 "00:00:00.30";
    SplitTime.mk (clock + 500) "00:00:00.60" 200 "00:00:00.20" ].

(** Two splits with laps 100 and 105 ms. *)
Definition twoLaps : list SplitTime.t :=
  [ SplitTime.mk clock "00:00:00.10" 100 "00:00:00.10";
    SplitTime.mk (clock + 105) "00:00:00.20" 105 "00:00:00.10" ].

(** ** Session Exporter (lines 122-159)

    [currentDate] is the string [new Date().toLocaleString()] returns. The
    calls into the spreadsheet library are not modelled: the handler is
    taken up to the values it hands to that library. *)

Inductive Cell : Type :=
| Text (s : string)
| Number (n : Z).

(** [stats?.part.field] inside a template literal: an absent [stats] is
    printed as the word undefined. *)
Definition optionalField (stats : option Stats.t)
    (part : Stats.t -> Formatted.t) (field : Formatted.t -> string) : string :=
  match stats with
  | Some s => field (part s)
  | None => "undefined"
  end.

(** The template literals of lines 133-135. *)
Definition statLabel (stats : option Stats.t)
    (part : Stats.t -> Formatted.t) : string :=
  optionalField stats part Formatted.hours ++ ":" ++
  optionalField stats part Formatted.minutes ++ ":" ++
  optionalField stats part Formatted.seconds ++ "." ++
  optionalField stats part Formatted.milliseconds.

(** The rows pushed by [splits.forEach] (lines 142-144); [index] is the
    index of the first split of the list. *)
Fixpoint splitRows (index : Z) (splits : list SplitTime.t) : list (list Cell) :=
  match splits with
  | [] => []
  | split :: rest =>
      [Number (index + 1); Text (SplitTime.time split);
       Text (SplitTime.lap split)]
      :: splitRows (index + 1) rest
  end.

Definition wsData (currentDate : string) (st : State) : list (list Cell) :=
  let stats := calculateStats (splits st) in
  [ [Text ("Stopwatch Session - " ++ currentDate)];
    [];
    [Text "Total Time"; Text (label (formatTime (inject_Z (time st))))];
    [];
    [Text "Statistics"];
    [Text "Average Lap"; Text (statLabel stats Stats.average)];
    [Text "Best Lap"; Text (statLabel stats Stats.best)];
    [Text "Worst Lap"; Text (statLabel stats Stats.worst)];
    [];
    [Text "Split Times"];
    [Text "Split Number"; Text "Total Time"; Text "Lap Time"] ]
  ++ splitRows 0 (splits st).

(** The character class of the regular expression of line 158: slash,
    colon and backslash. *)
Definition isUnsafe (c : ascii) : bool :=
  (c =? "/")%char || (c =? ":")%char || (c =? "\")%char.

(** [s.replace(/[/:\\]/g, '-')]. *)
Fixpoint replaceUnsafe (s : string) : string :=
  match s with
  | EmptyString => EmptyString
  | String c r => String (if isUnsafe c then "-"%char else c) (replaceUnsafe r)
  end.

Record Workbook : Type := mkWorkbook {
  sheetName : string;
  rows : list (list Cell);
  colWidths : list Z;
  fileName : string
}.

Definition handleExportExcel (currentDate : string) (st : State) : Workbook :=
  {| sheetName := "Stopwatch Data";
     rows := wsData currentDate st;
     colWidths := [15; 20; 20];
     fileName := "stopwatch-session-" ++ replaceUnsafe currentDate ++ ".xlsx" |}.

(** The export button is rendered only with at least one split (line 290). *)
Definition exportShown (st : State) : bool :=
  negb (Nat.eqb (List.length (splits st)) 0).

(** ** More vocabulary *)

Fixpoint allChars (p : ascii -> bool) (s : string) : bool :=
  match s with
  | EmptyString => true
  | String c r => p c && allChars p r
  end.

(** Number of ticks along [es] that find the stopwatch running. *)
Fixpoint ticksDelivered (st : State) (es : list Event) : Z :=
  match es with
  | [] => 0
  | e :: rest =>
      match e with
      | Tick => if isRunning st then 1 else 0
      | _ => 0
      end + ticksDelivered (fst (step st e)) rest
  end.

(** Running sums of [laps], starting above [prev]. *)
Fixpoint boundaries (prev : Z) (laps : list Z) : list Z :=
  match laps with
  | [] => []
  | d :: rest => (prev + d) :: boundaries (prev + d) rest
  end.

Definition timeLabel (t : Z) : string := label (formatTime (inject_Z t)).

(** What the split list records, held against the stored laps. *)
Record Ledger (st : State) : Prop := mkLedger {
  ledger_sum : fold_right Z.add 0 (durations st) = lastSplitTime st;
  ledger_laps :
    map SplitTime.lap (splits st) = map timeLabel (durations st);
  ledger_times :
    map SplitTime.time (splits st)
    = map timeLabel (boundaries 0 (durations st))
}.

(** The field of a target that a box edits. *)
Definition fieldOf (f : Field) (t : Target.t) : string :=
  match f with
  | Hours => Target.hours t
  | Minutes => Target.minutes t
  | Seconds => Target.seconds t
  end.

(** The characters 0 to 9. *)
Definition isDecimalDigit (c : ascii) : bool :=
  let n := N_of_ascii c in
  ((48 <=? n) && (n <=? 57))%N.

(** [s] is the decimal numeral of [z] padded with zeros to two digits:
    the printed integer with only as many ['0'] in front as it lacks to
    two characters; all its characters are digits; it has two characters,
    or more and then no leading zero; it reads back as [z]. *)
Definition paddedDecimal (z : Z) (s : string) : Prop :=
  (exists zeros : string,
      s = (zeros ++ JS.toString z)%string
      /\ allChars (fun c => (c =? "0")%char) zeros = true
      /\ String.length zeros = (2 - String.length (JS.toString z))%nat)
  /\ allChars isDecimalDigit s = true
  /\ (2 <= String.length s)%nat
  /\ (String.length s = 2%nat
      \/ exists c r, s = String c r /\ c <> "0"%char)
  /\ JS.parseInt s = Num z.

Definition paddedFields (f : TimeFields) (t : Formatted.t) : Prop :=
  paddedDecimal (f_hours f) (Formatted.hours t)
  /\ paddedDecimal (f_minutes f) (Formatted.minutes t)
  /\ paddedDecimal (f_seconds f) (Formatted.seconds t)
  /\ paddedDecimal (f_milliseconds f) (Formatted.milliseconds t).

(** Three splits as the button followed by the S key can leave them, one
    lap negative. *)
Definition mixedLaps : list SplitTime.t :=
  [ SplitTime.mk clock "00:00:01.50" 1500 "00:00:01.50";
    SplitTime.mk (clock + 1) "00:00:00.00" (-1500) "-1:-1:-2.-50";
    SplitTime.mk (clock + 2) "00:00:01.52" 1520 "00:00:01.52" ].

(** Events that neither toggle start/pause nor reset. *)
Definition keepsPaused (e : Event) : bool :=
  match e with
  | ClickStartStop | KeySpace | ClickReset | KeyR => false
  | _ => true
  end.

(** * Proofs *)

(** ** Rational arithmetic behind [timeFields] *)

Section FloorFacts.

Local Open Scope Q_scope.

Lemma Qfloor_div_pos (q : Q) (d : positive) :
  Qfloor (q / inject_Z (Zpos d)) = (Qfloor q / Zpos d)%Z.
Proof.
  destruct q as [n m].
  assert (E : (n # m) / inject_Z (Zpos d) == n # (m * d)).
  { unfold Qeq, Qdiv, Qmult, Qinv, inject_Z; simpl. lia. }
  rewrite (Qfloor_comp _ _ E). unfold Qfloor.
  rewrite Pos2Z.inj_mul. symmetry. apply Z.div_div; lia.
Qed.

Lemma Qfloor_sub_Z (q : Q) (k : Z) :
  Qfloor (q - inject_Z k) = (Qfloor q - k)%Z.
Proof.
  destruct q as [n m].
  assert (E : (n # m) - inject_Z k == (n + (- k) * Zpos m) # m).
  { unfold Qeq, Qminus, Qplus, Qopp, inject_Z; simpl. lia. }
  rewrite (Qfloor_comp _ _ E). unfold Qfloor.
  rewrite Z.div_add by lia. lia.
Qed.

Lemma Qfloor_nonneg (q : Q) : 0 <= q -> (0 <= Qfloor q)%Z.
Proof.
  intros H. apply (Qfloor_resp_le 0 q) in H. exact H.
Qed.

Lemma Qdiv_pos_nonneg (q : Q) (d : positive) :
  0 <= q -> 0 <= q / inject_Z (Zpos d).
Proof.
  intros H. apply Qle_shift_div_l.
  - reflexivity.
  - rewrite Qmult_0_l. exact H.
Qed.

(** For a non-negative dividend [%] is the usual remainder. *)
Lemma rem_nonneg (q : Q) (m : positive) :
  0 <= q ->
  JS.rem q (inject_Z (Zpos m))
  == q - inject_Z (Zpos m * (Qfloor q / Zpos m)).
Proof.
  intros H. unfold JS.rem, JS.Qtrunc.
  pose proof (Qdiv_pos_nonneg q m H) as Hd.
  apply Qle_bool_iff in Hd. rewrite Hd.
  rewrite Qfloor_div_pos, inject_Z_mult. reflexivity.
Qed.

Lemma floor_rem_div (q : Q) (m d : positive) :
  0 <= q ->
  Qfloor (JS.rem q (inject_Z (Zpos m)) / inject_Z (Zpos d))
  = ((Qfloor q mod Zpos m) / Zpos d)%Z.
Proof.
  intros H. rewrite Qfloor_div_pos.
  rewrite (Qfloor_comp _ _ (rem_nonneg q m H)).
  rewrite Qfloor_sub_Z. f_equal.
  rewrite Z.mod_eq by lia. reflexivity.
Qed.

End FloorFacts.

(** On a non-negative input the fields are those of its integer part. *)
Lemma timeFields_nonneg (ms : Q) :
  (0 <= ms)%Q ->
  timeFields ms =
  {| f_hours := Qfloor ms / 3600000;
     f_minutes := (Qfloor ms mod 3600000) / 60000;
     f_seconds := (Qfloor ms mod 60000) / 1000;
     f_milliseconds := (Qfloor ms mod 1000) / 10 |}.
Proof.
  intros H. unfold timeFields.
  change 3600000%Q with (inject_Z (Zpos 3600000)).
  change 60000%Q with (inject_Z (Zpos 60000)).
  change 1000%Q with (inject_Z (Zpos 1000)).
  change 10%Q with (inject_Z (Zpos 10)).
  rewrite Qfloor_div_pos, !floor_rem_div by exact H.
  reflexivity.
Qed.

Lemma timeFields_Z (e : Z) :
  0 <= e ->
  timeFields (inject_Z e) =
  {| f_hours := e / 3600000;
     f_minutes := (e mod 3600000) / 60000;
     f_seconds := (e mod 60000) / 1000;
     f_milliseconds := (e mod 1000) / 10 |}.
Proof.
  intros H. rewrite timeFields_nonneg.
  - rewrite Qfloor_Z. reflexivity.
  - change 0%Q with (inject_Z 0). rewrite <- Zle_Qle. exact H.
Qed.

(** ** Decimal strings: [toString], [padStart] and [parseInt] *)

Section DecimalStrings.

Import Decimal.

Lemma radixDigits_uint (u : uint) :
  JS.radixDigits 10 (NilEmpty.string_of_uint u) = uintDigits u.
Proof.
  induction u as [|u IH|u IH|u IH|u IH|u IH|u IH|u IH|u IH|u IH|u IH];
    [reflexivity | cbn; rewrite <- IH; reflexivity ..].
Qed.

Lemma digits_acc (u : uint) (acc : positive) :
  fold_left (fun a d => a * 10 + d) (uintDigits u) (Zpos acc)
  = Zpos (Pos.of_uint_acc u acc).
Proof.
  revert acc.
  induction u as [|u IH|u IH|u IH|u IH|u IH|u IH|u IH|u IH|u IH|u IH];
    intros acc; cbn [uintDigits fold_left Pos.of_uint_acc];
    [reflexivity | rewrite <- IH; f_equal; lia ..].
Qed.

Lemma digitsValue_uint (u : uint) :
  JS.digitsValue 10 (uintDigits u) = Z.of_uint u.
Proof.
  unfold JS.digitsValue, Z.of_uint.
  induction u as [|u IH|u IH|u IH|u IH|u IH|u IH|u IH|u IH|u IH|u IH];
    cbn [uintDigits fold_left Pos.of_uint];
    [reflexivity | exact IH | apply digits_acc ..].
Qed.

(** On a decimal numeral [parseInt] skips nothing, reads no sign and no
    [0x] prefix. *)
Lemma parseInt_uint (u : uint) :
  JS.parseInt (NilEmpty.string_of_uint u)
  = match uintDigits u with
    | [] => NaN
    | ds => Num (JS.digitsValue 10 ds)
    end.
Proof.
  rewrite <- radixDigits_uint.
  assert (E : JS.parseInt (NilEmpty.string_of_uint u)
              = match JS.radixDigits 10 (NilEmpty.string_of_uint u) with
                | [] => NaN
                | ds => Num (1 * JS.digitsValue 10 ds)
                end).
  { destruct u as [|u|u|u|u|u|u|u|u|u|u]; try reflexivity.
    destruct u; reflexivity. }
  rewrite E. destruct (JS.radixDigits 10 (NilEmpty.string_of_uint u)).
  - reflexivity.
  - f_equal. lia.
Qed.

Lemma parseInt_uint_value (u : uint) :
  u <> Nil -> JS.parseInt (NilEmpty.string_of_uint u) = Num (Z.of_uint u).
Proof.
  intros Hu. rewrite parseInt_uint, <- digitsValue_uint.
  destruct u; try reflexivity. contradiction.
Qed.

Lemma numeral_nonnil (z : Z) : numeral z <> Nil.
Proof.
  destruct z; simpl; try discriminate. apply DecimalPos.Unsigned.to_uint_nonnil.
Qed.

Lemma numeral_value (z : Z) : 0 <= z -> Z.of_uint (numeral z) = z.
Proof.
  destruct z; simpl; intros H; try reflexivity; try lia.
  unfold Z.of_uint. rewrite DecimalPos.Unsigned.of_to. reflexivity.
Qed.

Lemma toString_numeral (z : Z) :
  0 <= z -> JS.toString z = NilEmpty.string_of_uint (numeral z).
Proof.
  intros H. unfold JS.toString.
  pose proof (numeral_nonnil z) as Hn.
  destruct z; simpl in *; try lia; try reflexivity.
  unfold NilZero.string_of_uint.
  destruct (Pos.to_uint p); try reflexivity. contradiction.
Qed.

End DecimalStrings.

(** [padStart(2, '0')] leaves a string alone or puts zeros in front. *)
Lemma padStart2_cases (s : string) :
  JS.padStart 2 "0" s = s \/ JS.padStart 2 "0" s = String "0" s
  \/ (s = EmptyString /\ JS.padStart 2 "0" s = "00"%string).
Proof.
  destruct s as [|c [|c2 r]]; simpl; auto.
Qed.

Lemma padStart2_length (s : string) :
  (2 <= String.length (JS.padStart 2 "0" s))%nat.
Proof.
  destruct s as [|c [|c2 r]]; simpl; lia.
Qed.

(** Reading a padded field back gives the number that was printed. *)
Lemma parseInt_pad2 (z : Z) : 0 <= z -> JS.parseInt (pad2 z) = Num z.
Proof.
  intros H. unfold pad2. rewrite (toString_numeral z H).
  pose proof (numeral_nonnil z) as Hn.
  pose proof (numeral_value z H) as Hv.
  destruct (padStart2_cases (NilEmpty.string_of_uint (numeral z)))
    as [E | [E | [E _]]].
  - rewrite E, parseInt_uint_value by exact Hn. congruence.
  - rewrite E.
    change (String "0" (NilEmpty.string_of_uint (numeral z)))
      with (NilEmpty.string_of_uint (Decimal.D0 (numeral z))).
    rewrite parseInt_uint_value by discriminate.
    unfold Z.of_uint in *. simpl. congruence.
  - destruct (numeral z); try discriminate. contradiction.
Qed.

(** A field below 100 is printed on exactly two characters. *)
Lemma pad2_two_chars (z : Z) :
  0 <= z <= 99 -> String.length (pad2 z) = 2%nat.
Proof.
  intros H.
  assert (A : forallb (fun n => Nat.eqb (String.length (pad2 (Z.of_nat n))) 2)
                (seq 0 100) = true) by (vm_compute; reflexivity).
  rewrite forallb_forall in A.
  specialize (A (Z.to_nat z)).
  rewrite Z2Nat.id in A by lia.
  apply Nat.eqb_eq, A, in_seq. lia.
Qed.

(** ** Time Formatter *)

Lemma pad2_renders (z : Z) : 0 <= z -> renders z (pad2 z).
Proof.
  intros H. split.
  - apply padStart2_length.
  - apply parseInt_pad2, H.
Qed.

Lemma timeFields_range (ms : Q) :
  (0 <= ms)%Q ->
  fieldsInRange (timeFields ms)
  /\ fieldsMs (timeFields ms) <= Qfloor ms < fieldsMs (timeFields ms) + 10.
Proof.
  intros H. rewrite (timeFields_nonneg ms H).
  pose proof (Qfloor_nonneg ms H) as Hz.
  unfold fieldsInRange, fieldsMs. cbn [f_hours f_minutes f_seconds f_milliseconds].
  generalize dependent (Qfloor ms). intros z Hz.
  Z.to_euclidean_division_equations. lia.
Qed.

Lemma formatTime_renders (ms : Q) :
  (0 <= ms)%Q -> rendersFields (timeFields ms) (formatTime ms).
Proof.
  intros H. destruct (timeFields_range ms H) as [(Hh & Hm & Hs & Hc) _].
  unfold rendersFields, formatTime.
  cbn [Formatted.hours Formatted.minutes Formatted.seconds Formatted.milliseconds].
  repeat split; try apply padStart2_length; apply parseInt_pad2; lia.
Qed.

(** *** Zero-padded decimal numerals *)

Lemma allChars_app (p : ascii -> bool) (a b : string) :
  allChars p (a ++ b) = allChars p a && allChars p b.
Proof.
  induction a as [|c a IH]; cbn [append allChars]; [reflexivity|].
  rewrite IH, andb_assoc. reflexivity.
Qed.

Lemma uint_all_digits (u : Decimal.uint) :
  allChars isDecimalDigit (NilEmpty.string_of_uint u) = true.
Proof.
  induction u as [|u IH|u IH|u IH|u IH|u IH|u IH|u IH|u IH|u IH|u IH];
    [reflexivity | cbn [NilEmpty.string_of_uint allChars]; rewrite IH;
                   reflexivity ..].
Qed.

Lemma nzhead_not_D0 (d x : Decimal.uint) : Decimal.nzhead d <> Decimal.D0 x.
Proof.
  induction d as [|d IH|d IH|d IH|d IH|d IH|d IH|d IH|d IH|d IH|d IH];
    cbn [Decimal.nzhead]; try discriminate. exact IH.
Qed.

(** The numeral of a positive integer does not start with 0. *)
Lemma to_uint_head (p : positive) :
  exists c r,
    NilEmpty.string_of_uint (Pos.to_uint p) = String c r /\ c <> "0"%char.
Proof.
  assert (E : Pos.to_uint p = Decimal.unorm (Pos.to_uint p)).
  { rewrite <- DecimalPos.Unsigned.to_of, DecimalPos.Unsigned.of_to.
    reflexivity. }
  pose proof (DecimalPos.Unsigned.to_uint_nonzero p) as Hz.
  pose proof (DecimalPos.Unsigned.to_uint_nonnil p) as Hn.
  destruct (Pos.to_uint p) as [|x|x|x|x|x|x|x|x|x|x];
    try contradiction;
    try (cbn [NilEmpty.string_of_uint]; do 2 eexists;
         split; [reflexivity | discriminate]).
  exfalso. unfold Decimal.unorm in E. cbn [Decimal.nzhead] in E.
  destruct (Decimal.nzhead x) eqn:N; try discriminate.
  - inversion E; subst. apply Hz. reflexivity.
  - apply (nzhead_not_D0 x u). rewrite N. symmetry. inversion E. reflexivity.
Qed.

Lemma padStart2_zeros (value : string) :
  exists zeros : string,
    JS.padStart 2 "0" value = (zeros ++ value)%string
    /\ allChars (fun c => (c =? "0")%char) zeros = true
    /\ String.length zeros = (2 - String.length value)%nat.
Proof.
  destruct value as [|c [|c2 r]]; cbn.
  - exists "00"%string. repeat split.
  - exists "0"%string. repeat split.
  - exists EmptyString. repeat split.
Qed.

Lemma zeros_are_digits (zeros : string) :
  allChars (fun c => (c =? "0")%char) zeros = true ->
  allChars isDecimalDigit zeros = true.
Proof.
  induction zeros as [|c r IH]; cbn [allChars]; [reflexivity|].
  intros H. apply andb_prop in H. destruct H as [Hc Hr].
  apply Ascii.eqb_eq in Hc. subst c. rewrite (IH Hr). reflexivity.
Qed.

Lemma pad2_paddedDecimal (z : Z) : 0 <= z -> paddedDecimal z (pad2 z).
Proof.
  intros H. unfold paddedDecimal, pad2.
  destruct (padStart2_zeros (JS.toString z)) as (zeros & E & Hz & Hl).
  split; [exists zeros; auto|].
  split.
  { rewrite E, allChars_app, (zeros_are_digits zeros Hz).
    rewrite (toString_numeral z H). apply uint_all_digits. }
  split; [apply padStart2_length|].
  split; [|apply parseInt_pad2, H].
  destruct z as [|p|p]; try lia.
  - left. reflexivity.
  - rewrite (toString_numeral (Zpos p) H). cbn [numeral].
    destruct (to_uint_head p) as (c & r & -> & Hc).
    destruct r as [|c2 r]; [left; reflexivity|].
    right. exists c, (String c2 r). split; [reflexivity | exact Hc].
Qed.

Lemma formatTime_padded (ms : Q) :
  (0 <= ms)%Q -> paddedFields (timeFields ms) (formatTime ms).
Proof.
  intros H. destruct (timeFields_range ms H) as [(Hh & Hm & Hs & Hc) _].
  unfold paddedFields, formatTime.
  cbn [Formatted.hours Formatted.minutes Formatted.seconds Formatted.milliseconds].
  repeat split; apply pad2_paddedDecimal; lia.
Qed.

(** C3: for every integer millisecond count [e >= 0], the fields computed
    by [formatTime] satisfy [sum <= e < sum + 10] where [sum] is
    [hours*3600000 + minutes*60000 + seconds*1000 + hundredths*10]; minutes
    and seconds lie in 0..59 and hundredths in 0..99; hundredths is
    [(e mod 1000) / 10] rounded down; each field is printed as its decimal
    numeral padded with zeros to at least two digits: only digits, the
    printed integer with just the zeros in front that it lacks to two
    characters, no leading zero beyond two characters, reading back as the
    field (exactly two characters for minutes, seconds and hundredths). *)
Theorem formatTime_integer (e : Z) :
  0 <= e ->
  let f := timeFields (inject_Z e) in
  let t := formatTime (inject_Z e) in
  fieldsMs f <= e < fieldsMs f + 10
  /\ fieldsInRange f
  /\ f_milliseconds f = (e mod 1000) / 10
  /\ f_milliseconds f * 10 <= e mod 1000 < f_milliseconds f * 10 + 10
  /\ rendersFields f t
  /\ paddedFields f t
  /\ String.length (Formatted.minutes t) = 2%nat
  /\ String.length (Formatted.seconds t) = 2%nat
  /\ String.length (Formatted.milliseconds t) = 2%nat.
Proof.
  intros He f t.
  assert (Hq : (0 <= inject_Z e)%Q).
  { change 0%Q with (inject_Z 0). rewrite <- Zle_Qle. exact He. }
  destruct (timeFields_range _ Hq) as [Hr Hs].
  rewrite Qfloor_Z in Hs. fold f in Hr, Hs.
  assert (Hc : f_milliseconds f = (e mod 1000) / 10).
  { unfold f. rewrite (timeFields_Z e He). reflexivity. }
  pose proof (formatTime_renders _ Hq) as Hren.
  pose proof (formatTime_padded _ Hq) as Hpad.
  destruct Hr as (Hh & Hm & Hsec & Hms).
  split; [exact Hs|].
  split; [repeat split; lia|].
  split; [exact Hc|].
  split; [rewrite Hc; Z.to_euclidean_division_equations; lia|].
  split; [exact Hren|].
  split; [exact Hpad|].
  repeat split; apply pad2_two_chars; fold f; lia.
Qed.

Lemma formatTime_integer_witness :
  0 <= 3723456 /\
  let f := timeFields (inject_Z 3723456) in
  let t := formatTime (inject_Z 3723456) in
  fieldsMs f <= 3723456 < fieldsMs f + 10
  /\ fieldsInRange f
  /\ f_milliseconds f = (3723456 mod 1000) / 10
  /\ f_milliseconds f * 10 <= 3723456 mod 1000 < f_milliseconds f * 10 + 10
  /\ rendersFields f t
  /\ paddedFields f t
  /\ String.length (Formatted.minutes t) = 2%nat
  /\ String.length (Formatted.seconds t) = 2%nat
  /\ String.length (Formatted.milliseconds t) = 2%nat.
Proof.
  split; [lia | apply (formatTime_integer 3723456); lia].
Defined.

(** ** Engine: what a step keeps *)

Lemma keydownEffect_time a b : time (keydownEffect a b) = time b.
Proof. unfold keydownEffect. destruct (Bool.eqb _ _); reflexivity. Qed.

Lemma keydownEffect_isRunning a b :
  isRunning (keydownEffect a b) = isRunning b.
Proof. unfold keydownEffect. destruct (Bool.eqb _ _); reflexivity. Qed.

Lemma keydownEffect_splits a b : splits (keydownEffect a b) = splits b.
Proof. unfold keydownEffect. destruct (Bool.eqb _ _); reflexivity. Qed.

Lemma keydownEffect_target a b : target (keydownEffect a b) = target b.
Proof. unfold keydownEffect. destruct (Bool.eqb _ _); reflexivity. Qed.

Lemma keydownEffect_lastSplitTime a b :
  lastSplitTime (keydownEffect a b) = lastSplitTime b.
Proof. unfold keydownEffect. destruct (Bool.eqb _ _); reflexivity. Qed.

Lemma handleSplit_time r now st : time (handleSplit r now st) = time st.
Proof. unfold handleSplit. destruct (r_isRunning r); reflexivity. Qed.

Lemma handleSplit_isRunning r now st :
  isRunning (handleSplit r now st) = isRunning st.
Proof. unfold handleSplit. destruct (r_isRunning r); reflexivity. Qed.

Lemma handleSplit_target r now st : target (handleSplit r now st) = target st.
Proof. unfold handleSplit. destruct (r_isRunning r); reflexivity. Qed.

Lemma handleSplit_keydown r now st :
  keydown (handleSplit r now st) = keydown st.
Proof. unfold handleSplit. destruct (r_isRunning r); reflexivity. Qed.

Create Rewrite HintDb fields.
#[local] Hint Rewrite keydownEffect_time keydownEffect_isRunning
  keydownEffect_splits keydownEffect_target keydownEffect_lastSplitTime
  handleSplit_time handleSplit_isRunning handleSplit_target
  handleSplit_keydown : fields.

Ltac step_fields :=
  autorewrite with fields;
  cbn [time isRunning splits target lastSplitTime keydown r_time r_isRunning
       handleStartStop handleReset setTarget render fst snd].

Lemma step_target (st : State) (e : Event) :
  keepsTarget e = true -> target (fst (step st e)) = target st.
Proof.
  destruct e; cbn [step fst keepsTarget]; try discriminate; intros _;
    try (unfold tick; destruct (isRunning st); reflexivity);
    step_fields; reflexivity.
Qed.

(** Only a tick moves [time] within a run, by 10, and only a tick can play
    the audio. *)
Lemma step_time (st : State) (e : Event) :
  isReset e = false ->
  time (fst (step st e))
  = match e with
    | Tick => if isRunning st then time st + 10 else time st
    | _ => time st
    end.
Proof.
  destruct e; cbn [step fst isReset]; try discriminate; intros _;
    try (unfold tick; destruct (isRunning st); reflexivity);
    step_fields; reflexivity.
Qed.

Lemma step_alert (st : State) (e : Event) :
  snd (step st e)
  = match e with
    | Tick => isRunning st
              && alertCondition (targetMs (target st)) (time st) (time st + 10)
    | _ => false
    end.
Proof.
  destruct e; cbn [step snd]; try reflexivity.
  unfold tick. destruct (isRunning st); reflexivity.
Qed.

Lemma run_time_mono (st : State) (es : list Event) :
  forallb keepsRun es = true -> time st <= time (run st es).
Proof.
  revert st. induction es as [|e es IH]; intros st H; cbn [run].
  - lia.
  - cbn [forallb] in H. apply andb_prop in H. destruct H as [He Hes].
    specialize (IH (fst (step st e)) Hes).
    unfold keepsRun in He. apply andb_prop in He. destruct He as [_ He].
    apply negb_true_iff in He.
    rewrite (step_time st e He) in IH.
    destruct e; try lia. destruct (isRunning st); lia.
Qed.

(** ** Target Evaluator *)

Lemma alertCondition_iff (tm : number) (prevTime newTime : Z) :
  alertCondition tm prevTime newTime = true
  <-> exists t, tm = Num t /\ 0 < t /\ t <= newTime /\ prevTime < t.
Proof.
  unfold alertCondition. destruct tm as [t|]; cbn [JS.gt JS.ge JS.lt].
  - rewrite !andb_true_iff, !Z.ltb_lt, Z.leb_le. split.
    + intros [[H1 H2] H3]. exists t. auto.
    + intros (t' & E & H1 & H2 & H3). inversion E. subst. auto.
  - split; [discriminate | intros (t & E & _); discriminate].
Qed.

Lemma alertCount_run (st : State) (T : Z) (es : list Event) :
  targetMs (target st) = Num T ->
  forallb keepsRun es = true ->
  alertCount st es
  = if (0 <? T) && (time st <? T) && (T <=? time (run st es))
    then 1%nat else 0%nat.
Proof.
  revert st. induction es as [|e es IH]; intros st HT H; cbn [alertCount run].
  - destruct (0 <? T); destruct (time st <? T) eqn:E1;
      destruct (T <=? time st) eqn:E2; try reflexivity. lia.
  - cbn [forallb] in H. apply andb_prop in H. destruct H as [He Hes].
    pose proof (run_time_mono (fst (step st e)) es Hes) as Hmono.
    unfold keepsRun in He. apply andb_prop in He. destruct He as [Hk Hr].
    apply negb_true_iff in Hr.
    rewrite (IH (fst (step st e))) by (rewrite ?step_target; assumption).
    rewrite step_alert.
    remember (time (run (fst (step st e)) es)) as final eqn:Ef. clear Ef.
    rewrite (step_time st e Hr) in *.
    destruct e; cbn [andb Nat.add]; try reflexivity.
    destruct (isRunning st); cbn [andb Nat.add]; try reflexivity.
    rewrite HT. unfold alertCondition. cbn [JS.gt JS.ge JS.lt].
    destruct (0 <? T) eqn:E0; cbn [andb]; try reflexivity.
    destruct (T <=? time st + 10) eqn:E1;
      destruct (time st <? T) eqn:E2;
      destruct (time st + 10 <? T) eqn:E3;
      destruct (T <=? final) eqn:E4;
      cbn [andb Nat.add]; try reflexivity; lia.
Qed.

Lemma alertCount_never (st : State) (es : list Event) :
  (forall prevTime newTime,
      alertCondition (targetMs (target st)) prevTime newTime = false) ->
  forallb keepsTarget es = true ->
  alertCount st es = 0%nat.
Proof.
  revert st. induction es as [|e es IH]; intros st HT H; cbn [alertCount].
  - reflexivity.
  - cbn [forallb] in H. apply andb_prop in H. destruct H as [He Hes].
    rewrite IH by (rewrite ?step_target; assumption).
    rewrite step_alert. destruct e; try reflexivity.
    rewrite HT, andb_false_r. reflexivity.
Qed.

Lemma targetMs_noTarget : targetMs noTarget = Num 0.
Proof. reflexivity. Qed.

(** C1: the alert condition of a tick is true exactly when
    [targetMs > 0], [newTime >= targetMs] and [prevTime < targetMs]; along
    any run (no reset, target not edited) with a target [T > 0] the audio
    is played once if the run takes [time] from below [T] to [T] or beyond,
    and not at all otherwise, so never again after the crossing tick; with
    the target 00:00:00 it is never played. *)
Theorem alert_fires_once
    (tm : number) (prevTime newTime : Z)
    (st : State) (T : Z) (es : list Event) :
  targetMs (target st) = Num T ->
  0 < T ->
  forallb keepsRun es = true ->
  (alertCondition tm prevTime newTime = true
   <-> exists t, tm = Num t /\ 0 < t /\ t <= newTime /\ prevTime < t)
  /\ alertCount st es
     = (if (time st <? T) && (T <=? time (run st es)) then 1%nat else 0%nat)
  /\ (forall st0 es0,
         target st0 = noTarget -> forallb keepsTarget es0 = true ->
         alertCount st0 es0 = 0%nat)
  /\ alertCondition (Num 5000) 4990 5000 = true
  /\ alertCondition (Num 5000) 5000 5010 = false.
Proof.
  intros HT Hpos Hes. split; [apply alertCondition_iff|].
  split.
  - rewrite (alertCount_run st T es HT Hes).
    apply Z.ltb_lt in Hpos. rewrite Hpos. reflexivity.
  - split; [|split; reflexivity].
    intros st0 es0 E H0. apply alertCount_never; [|exact H0].
    intros p n. rewrite E. reflexivity.
Qed.

Lemma alert_fires_once_witness :
  targetMs (target (startedWith fiveSeconds)) = Num 5000
  /\ 0 < 5000
  /\ forallb keepsRun (repeat Tick 700) = true
  /\ alertCount (startedWith fiveSeconds) (repeat Tick 700) = 1%nat.
Proof.
  split; [reflexivity|]. split; [lia|]. split; [reflexivity|].
  exact (proj1 (proj2 (alert_fires_once NaN 0 0 (startedWith fiveSeconds) 5000
                         (repeat Tick 700) eq_refl eq_refl eq_refl))).
Defined.

(** ** Target fields that do not parse *)

(** C2, as stated, fails: with minutes ".5" and seconds "05" the claimed
    threshold is 5000 ms, which the 4990 -> 5000 tick would cross, but the
    code computes [NaN] and the audio is never played. *)
Lemma targetMs_unparseable_counterexample :
  halfMinute
  = {| Target.hours := "00"; Target.minutes := ".5"; Target.seconds := "05" |}
  /\ JS.parseInt (Target.minutes halfMinute) = NaN
  /\ specTargetMs halfMinute = Num 5000
  /\ alertCondition (specTargetMs halfMinute) 4990 5000 = true
  /\ targetMs halfMinute = NaN
  /\ targetMs halfMinute <> specTargetMs halfMinute
  /\ alertCount (startedWith halfMinute) (repeat Tick 700) = 0%nat.
Proof.
  repeat split; try reflexivity. discriminate.
Qed.

(** C2 (amended): [targetMs] is defined on every target; when the three
    fields parse to [h], [m], [s] it is
    [h*3600000 + m*60000 + s*1000]; when some field does not parse it is
    [NaN], and then no tick plays the audio while the target stays. *)
Theorem targetMs_cases (t : Target.t) (st : State) (es : list Event) :
  target st = t ->
  forallb keepsTarget es = true ->
  match JS.parseInt (Target.hours t), JS.parseInt (Target.minutes t),
        JS.parseInt (Target.seconds t) with
  | Num h, Num m, Num s =>
      targetMs t = Num (h * 3600000 + m * 60000 + s * 1000)
  | _, _, _ => targetMs t = NaN /\ alertCount st es = 0%nat
  end.
Proof.
  intros Et Hes.
  assert (N : targetMs t = NaN -> alertCount st es = 0%nat).
  { intros E. apply alertCount_never; [|exact Hes].
    intros p n. rewrite Et, E. reflexivity. }
  unfold targetMs in *.
  destruct (JS.parseInt (Target.hours t)) as [h|];
    destruct (JS.parseInt (Target.minutes t)) as [m|];
    destruct (JS.parseInt (Target.seconds t)) as [s|];
    cbn [JS.add JS.mul] in *; auto.
Qed.

Lemma targetMs_cases_witness :
  target (startedWith halfMinute) = halfMinute
  /\ forallb keepsTarget (repeat Tick 700) = true
  /\ targetMs halfMinute = NaN
  /\ alertCount (startedWith halfMinute) (repeat Tick 700) = 0%nat.
Proof.
  split; [reflexivity|]. split; [reflexivity|].
  exact (targetMs_cases halfMinute (startedWith halfMinute) (repeat Tick 700)
           eq_refl eq_refl).
Defined.

(** ** Stopwatch Engine *)

Lemma initial_coherent : Coherent initial.
Proof. split; cbn; try lia; discriminate. Qed.

Lemma step_coherent (st : State) (e : Event) :
  Coherent st -> Coherent (fst (step st e)).
Proof.
  intros [H1 H2 H3 H4].
  destruct st as [t run spl tg lst [kt kr]]. cbn in *. subst kr.
  destruct e; cbn [step fst];
    try (destruct run; split; cbn in *; intros; try lia; try discriminate;
         auto; fail).
Qed.

Lemma reachable_coherent (st : State) : reachable st -> Coherent st.
Proof.
  intros [es ->].
  assert (G : forall s, Coherent s -> Coherent (run s es)).
  { induction es as [|e es IH]; intros s Hs; cbn [run].
    - exact Hs.
    - apply IH, step_coherent, Hs. }
  apply G, initial_coherent.
Qed.

(** C4: from every state, Reset (the button or the R key) leaves the
    stopwatch stopped with [time = 0], no splits and
    [lastSplitTime.current = 0]. *)
Theorem reset_clears (st : State) :
  let viaClick := fst (step st ClickReset) in
  let viaKey := fst (step st KeyR) in
  (isRunning viaClick = false /\ time viaClick = 0
   /\ splits viaClick = [] /\ lastSplitTime viaClick = 0)
  /\ (isRunning viaKey = false /\ time viaKey = 0
      /\ splits viaKey = [] /\ lastSplitTime viaKey = 0)
  /\ (isRunning (handleReset st) = false /\ time (handleReset st) = 0
      /\ splits (handleReset st) = [] /\ lastSplitTime (handleReset st) = 0).
Proof.
  cbn [step fst]. step_fields. repeat split.
Qed.

(** ** Split Recorder *)

(** C5: in every stopped state the stopwatch can reach, Split (the
    button or the S key) changes nothing: the whole state, so the splits, their number, [time] and
    [lastSplitTime.current], is as before, and nothing is played. *)
Theorem split_while_stopped (st : State) (now : Z) :
  reachable st ->
  isRunning st = false ->
  step st (ClickSplit now) = (st, false)
  /\ step st (KeyS now) = (st, false)
  /\ List.length (splits (fst (step st (ClickSplit now))))
     = List.length (splits st)
  /\ List.length (splits (fst (step st (KeyS now))))
     = List.length (splits st).
Proof.
  intros Hr Hs. destruct (reachable_coherent st Hr) as [Hk _ _ _].
  assert (E1 : step st (ClickSplit now) = (st, false)).
  { cbn [step]. unfold handleSplit, render. cbn [r_isRunning].
    rewrite Hs. unfold keydownEffect. rewrite eqb_reflx. reflexivity. }
  assert (E2 : step st (KeyS now) = (st, false)).
  { cbn [step]. unfold handleSplit. rewrite Hk, Hs.
    unfold keydownEffect. rewrite eqb_reflx. reflexivity. }
  rewrite E1, E2. repeat split.
Qed.

Lemma split_while_stopped_witness :
  reachable (run initial pausedAfterSplit)
  /\ isRunning (run initial pausedAfterSplit) = false
  /\ step (run initial pausedAfterSplit) (ClickSplit 1700000000500)
     = (run initial pausedAfterSplit, false)
  /\ step (run initial pausedAfterSplit) (KeyS 1700000000500)
     = (run initial pausedAfterSplit, false)
  /\ List.length (splits (fst (step (run initial pausedAfterSplit)
                                 (ClickSplit 1700000000500))))
     = List.length (splits (run initial pausedAfterSplit))
  /\ List.length (splits (fst (step (run initial pausedAfterSplit)
                                 (KeyS 1700000000500))))
     = List.length (splits (run initial pausedAfterSplit)).
Proof.
  split; [exists pausedAfterSplit; reflexivity|]. split; [reflexivity|].
  apply (split_while_stopped (run initial pausedAfterSplit) 1700000000500).
  - exists pausedAfterSplit. reflexivity.
  - reflexivity.
Defined.

(** *** Splits taken with the button *)

Lemma last_cons_default (z : Z) (l : list Z) (d d' : Z) :
  last (z :: l) d = last (z :: l) d'.
Proof.
  revert z. induction l as [|y l IH]; intros z; [reflexivity|].
  change (last (y :: l) d = last (y :: l) d'). apply IH.
Qed.

(** X20: with the button, the laps are the differences of the successive
    split times and [lastSplitTime.current] is the latest of them. *)
Lemma click_splits_laps (st : State) (es : list Event) :
  forallb (fun e => negb (isReset e) && negb (isKeySplit e)) es = true ->
  durations (run st es)
  = durations st ++ diffs (lastSplitTime st) (clickSplitTimes st es)
  /\ lastSplitTime (run st es)
     = last (clickSplitTimes st es) (lastSplitTime st).
Proof.
  revert st. induction es as [|e es IH]; intros st H.
  - cbn. rewrite app_nil_r. auto.
  - cbn [forallb] in H. apply andb_prop in H. destruct H as [He Hes].
    apply andb_prop in He. destruct He as [Hr Hk].
    specialize (IH (fst (step st e)) Hes). destruct IH as [IHd IHl].
    cbn [run clickSplitTimes]. rewrite IHd, IHl. clear IHd IHl.
    unfold durations.
    destruct e; try discriminate; cbn [step fst app];
      unfold tick, handleSplit, render; cbn [r_isRunning r_time];
      destruct (isRunning st); step_fields; auto.
    rewrite map_app, <- app_assoc. cbn [map SplitTime.duration app diffs].
    split; [reflexivity|].
    destruct (clickSplitTimes _ es) as [|z l]; [reflexivity|].
    change (last (z :: l) (time st) = last (z :: l) (lastSplitTime st)).
    apply last_cons_default.
Qed.

(** In every reachable state [lastSplitTime.current] is between 0 and
    [time]. *)
Lemma reachable_lastSplit_le_time (st : State) :
  reachable st -> 0 <= lastSplitTime st <= time st.
Proof.
  intros H. apply reachable_coherent in H. apply H.
Qed.

(** As long as the S key is not used, no lap is negative. *)
Lemma click_step_nonneg (st : State) (e : Event) :
  isKeySplit e = false ->
  Coherent st ->
  Forall (fun d => 0 <= d) (durations st) ->
  Forall (fun d => 0 <= d) (durations (fst (step st e))).
Proof.
  intros Hk [_ _ _ Hl] Hd. unfold durations in *.
  destruct e; try discriminate; cbn [step fst];
    unfold tick, handleSplit, render; cbn [r_isRunning r_time];
    destruct (isRunning st); step_fields; auto.
  rewrite map_app. apply Forall_app. split; [exact Hd|].
  constructor; [cbn; lia | constructor].
Qed.

(** X21: in every run from the initial state that does not use the S key,
    resets included, no recorded lap is negative. *)
Lemma click_runs_nonneg_laps (es : list Event) :
  forallb (fun e => negb (isKeySplit e)) es = true ->
  Forall (fun d => 0 <= d) (durations (run initial es)).
Proof.
  assert (G : forall st, Coherent st ->
                Forall (fun d => 0 <= d) (durations st) ->
                forallb (fun e => negb (isKeySplit e)) es = true ->
                Forall (fun d => 0 <= d) (durations (run st es))).
  { induction es as [|e es IH]; intros st Hc Hd H; cbn [run]; [exact Hd|].
    cbn [forallb] in H. apply andb_prop in H. destruct H as [He Hes].
    apply negb_true_iff in He.
    apply IH; [apply step_coherent, Hc | apply click_step_nonneg; assumption
              | exact Hes]. }
  apply G; [apply initial_coherent | constructor].
Qed.

(** *** Splits taken with the S key *)

(** C6 fails on the S key: after start and 150 ticks ([time = 1500]) a
    split taken with the key is recorded with lap 0 and label 00:00:00.00,
    and [lastSplitTime.current] stays 0, because the listener still calls
    the [handleSplit] of the render that started the run; the same split
    taken with the button has lap 1500 and moves [lastSplitTime.current]
    to 1500. *)
Theorem key_split_misses_elapsed :
  let viaKey := run initial (splitAt1500 (KeyS clock)) in
  let viaClick := run initial (splitAt1500 (ClickSplit clock)) in
  time viaKey = 1500
  /\ durations viaKey = [0]
  /\ map SplitTime.time (splits viaKey) = ["00:00:00.00"%string]
  /\ lastSplitTime viaKey = 0
  /\ time viaClick = 1500
  /\ durations viaClick = [1500]
  /\ map SplitTime.time (splits viaClick) = ["00:00:01.50"%string]
  /\ lastSplitTime viaClick = 1500.
Proof.
  vm_compute. repeat split.
Qed.

(** C9, its second half, fails when the button and the S key are mixed:
    start, 150 ticks, a split with the button (lap 1500), then a split with
    the key, whose stale [time] is 0: the recorded lap is [0 - 1500]. The
    first half holds there: [lastSplitTime.current = 0 <= time]. *)
Theorem key_split_negative_lap :
  let st := run initial (splitAt1500 (ClickSplit clock) ++ [KeyS (clock + 1)]) in
  reachable st
  /\ time st = 1500
  /\ durations st = [1500; -1500]
  /\ ~ Forall (fun d => 0 <= d) (durations st)
  /\ lastSplitTime st <= time st.
Proof.
  split; [eexists; reflexivity|].
  split; [vm_compute; reflexivity|].
  assert (E : durations (run initial (splitAt1500 (ClickSplit clock)
                                       ++ [KeyS (clock + 1)]))
              = [1500; -1500]) by (vm_compute; reflexivity).
  split; [exact E|]. split.
  - rewrite E. intros H. inversion H as [|? ? _ H2]; subst.
    inversion H2 as [|? ? H3 _]; subst. lia.
  - vm_compute. discriminate.
Qed.

(** *** Split identities *)

(** Between resets the identities are the clock readings, in order. *)
Lemma ids_are_readings (st : State) (es : list Event) :
  forallb (fun e => negb (isReset e)) es = true ->
  ids (run st es) = ids st ++ splitReadings st es.
Proof.
  revert st. induction es as [|e es IH]; intros st H.
  - cbn. rewrite app_nil_r. reflexivity.
  - cbn [forallb] in H. apply andb_prop in H. destruct H as [He Hes].
    cbn [run splitReadings]. rewrite (IH _ Hes). unfold ids.
    destruct e; try discriminate; cbn [step fst app];
      unfold tick, handleSplit, render; cbn [r_isRunning r_time];
      try destruct (isRunning st); try destruct (r_isRunning (keydown st));
      step_fields; auto;
      rewrite map_app, <- app_assoc; reflexivity.
Qed.

(** C8 fails in the code: two splits whose [Date.now()] readings are the
    same millisecond carry the same [id], although the split list is
    rendered with [key={split.id}] (line 360), which needs distinct
    values. *)
Theorem same_millisecond_same_id :
  let st := run initial [ClickStartStop; Tick; ClickSplit clock; Tick;
                         ClickSplit clock] in
  ids st = [clock; clock]
  /\ durations st = [10; 10]
  /\ ~ NoDup (ids st).
Proof.
  assert (E : ids (run initial [ClickStartStop; Tick; ClickSplit clock; Tick;
                                ClickSplit clock]) = [clock; clock])
    by (vm_compute; reflexivity).
  split; [exact E|]. split; [vm_compute; reflexivity|].
  rewrite E. intros H. inversion H as [|? ? Hn _]; subst.
  apply Hn. left. reflexivity.
Qed.

(** ** Statistics Calculator *)

Lemma fold_add_acc (l : list Z) (a : Z) :
  fold_left (fun x y => x + y) l a = a + fold_right Z.add 0 l.
Proof.
  revert a. induction l as [|y l IH]; intros a; cbn [fold_left fold_right].
  - lia.
  - rewrite IH. lia.
Qed.

Lemma sumLaps_sum (l : list Z) : sumLaps l = fold_right Z.add 0 l.
Proof. unfold sumLaps. rewrite fold_add_acc. lia. Qed.

Lemma Math_min_spec (d : Z) (ds : list Z) :
  In (Math_min d ds) (d :: ds)
  /\ Forall (fun x => Math_min d ds <= x) (d :: ds).
Proof.
  unfold Math_min. revert d.
  induction ds as [|y ds IH]; intros d; cbn [fold_left].
  - split; [left; reflexivity | constructor; [lia | constructor]].
  - destruct (IH (Z.min d y)) as [Hin Hall].
    inversion Hall as [|? ? Hm Hrest]; subst. split.
    + destruct Hin as [E | Hin].
      * rewrite <- E. destruct (Z.min_spec d y) as [[_ ->] | [_ ->]];
          [left | right; left]; reflexivity.
      * right. right. exact Hin.
    + constructor; [lia | constructor; [lia | exact Hrest]].
Qed.

Lemma Math_max_spec (d : Z) (ds : list Z) :
  In (Math_max d ds) (d :: ds)
  /\ Forall (fun x => x <= Math_max d ds) (d :: ds).
Proof.
  unfold Math_max. revert d.
  induction ds as [|y ds IH]; intros d; cbn [fold_left].
  - split; [left; reflexivity | constructor; [lia | constructor]].
  - destruct (IH (Z.max d y)) as [Hin Hall].
    inversion Hall as [|? ? Hm Hrest]; subst. split.
    + destruct Hin as [E | Hin].
      * rewrite <- E. destruct (Z.max_spec d y) as [[_ ->] | [_ ->]];
          [right; left | left]; reflexivity.
      * right. right. exact Hin.
    + constructor; [lia | constructor; [lia | exact Hrest]].
Qed.

(** The average times the number of laps is their sum: no rounding. *)
Lemma avgLap_exact (l : list Z) :
  l <> [] ->
  (avgLap l * inject_Z (Z.of_nat (List.length l)) == inject_Z (sumLaps l))%Q.
Proof.
  intros Hl. unfold avgLap. rewrite Qmult_comm. apply Qmult_div_r.
  destruct l as [|x l]; [contradiction|].
  cbn [List.length]. intros E. unfold Qeq in E. cbn in E. lia.
Qed.

Lemma avgLap_nonneg (l : list Z) :
  Forall (fun d => 0 <= d) l -> (0 <= avgLap l)%Q.
Proof.
  intros H. unfold avgLap.
  assert (Hs : 0 <= sumLaps l).
  { rewrite sumLaps_sum. induction H; cbn [fold_right]; lia. }
  destruct l as [|x l].
  - cbn. unfold Qle. cbn. lia.
  - apply Qle_shift_div_l.
    + change 0%Q with (inject_Z 0). rewrite <- Zlt_Qlt. cbn [List.length]. lia.
    + rewrite Qmult_0_l. change 0%Q with (inject_Z 0).
      rewrite <- Zle_Qle. exact Hs.
Qed.

(** C7: [calculateStats] depends on the splits only through their laps; it
    returns nothing for no splits; for at least one split it returns the
    formatted arithmetic mean (mean times count = sum), the formatted
    minimum and the formatted maximum of the laps; for laps 100, 300, 200
    these are 200, 100 and 300 ms. *)
Theorem calculateStats_spec (splits other : list SplitTime.t) :
  splits <> [] ->
  map SplitTime.duration other = map SplitTime.duration splits ->
  let laps := map SplitTime.duration splits in
  calculateStats [] = None
  /\ calculateStats other = calculateStats splits
  /\ (exists avg best worst,
         calculateStats splits
         = Some {| Stats.average := formatTime avg;
                   Stats.best := formatTime (inject_Z best);
                   Stats.worst := formatTime (inject_Z worst) |}
         /\ (avg * inject_Z (Z.of_nat (List.length laps))
             == inject_Z (fold_right Z.add 0%Z laps))%Q
         /\ In best laps /\ Forall (fun d => best <= d) laps
         /\ In worst laps /\ Forall (fun d => d <= worst) laps)
  /\ (avgLap [100; 300; 200]%Z == 200)%Q
  /\ calculateStats threeLaps
     = Some {| Stats.average := formatTime 200;
               Stats.best := formatTime 100;
               Stats.worst := formatTime 300 |}.
Proof.
  intros Hne Ho laps. split; [reflexivity|].
  split; [unfold calculateStats; rewrite Ho; reflexivity|].
  split; [|split; [reflexivity | vm_compute; reflexivity]].
  unfold calculateStats. fold laps.
  assert (Hl : laps <> []).
  { unfold laps. destruct splits; [contradiction | discriminate]. }
  destruct laps as [|d ds] eqn:E; [contradiction|].
  exists (avgLap (d :: ds)), (Math_min d ds), (Math_max d ds).
  split; [reflexivity|]. split.
  - rewrite <- sumLaps_sum. apply avgLap_exact. discriminate.
  - destruct (Math_min_spec d ds), (Math_max_spec d ds). auto.
Qed.

Lemma calculateStats_spec_witness :
  threeLaps <> []
  /\ map SplitTime.duration threeLaps = map SplitTime.duration threeLaps
  /\ calculateStats threeLaps
     = Some {| Stats.average := formatTime 200;
               Stats.best := formatTime 100;
               Stats.worst := formatTime 300 |}.
Proof.
  split; [discriminate|]. split; [reflexivity|].
  apply (calculateStats_spec threeLaps threeLaps);
    [discriminate | reflexivity].
Defined.

(** C10: for every non-empty split sequence the average handed to
    [formatTime] is the exact quotient [sum / count] (for laps 100 and 105
    it is 102.5, not an integer); whenever that average is non-negative,
    whatever the signs of the single laps, [formatTime] of it has minutes
    and seconds in 0..59 and hundredths in 0..99, the fields being those
    of the integer part of the average, each printed as a zero-padded
    decimal numeral of at least two digits. *)
Theorem average_fields_in_range (splits : list SplitTime.t) :
  splits <> [] ->
  (0 <= avgLap (map SplitTime.duration splits))%Q ->
  let laps := map SplitTime.duration splits in
  let avg := avgLap laps in
  (avg * inject_Z (Z.of_nat (List.length laps)) == inject_Z (sumLaps laps))%Q
  /\ (exists best worst,
         calculateStats splits
         = Some {| Stats.average := formatTime avg;
                   Stats.best := best; Stats.worst := worst |})
  /\ (0 <= avg)%Q
  /\ fieldsInRange (timeFields avg)
  /\ timeFields avg = timeFields (inject_Z (Qfloor avg))
  /\ fieldsMs (timeFields avg) <= Qfloor avg < fieldsMs (timeFields avg) + 10
  /\ rendersFields (timeFields avg) (formatTime avg)
  /\ paddedFields (timeFields avg) (formatTime avg)
  /\ (avgLap (map SplitTime.duration twoLaps) == 205 # 2)%Q
  /\ (inject_Z 102 < avgLap (map SplitTime.duration twoLaps) < inject_Z 103)%Q
  /\ formatTime (avgLap (map SplitTime.duration twoLaps))
     = {| Formatted.hours := "00"; Formatted.minutes := "00";
          Formatted.seconds := "00"; Formatted.milliseconds := "10" |}.
Proof.
  intros Hne Ha laps avg.
  assert (Hl : laps <> []).
  { unfold laps. destruct splits; [contradiction | discriminate]. }
  fold laps in Ha. fold avg in Ha.
  destruct (timeFields_range avg Ha) as [Hr Hs].
  split; [apply avgLap_exact, Hl|].
  split.
  { unfold calculateStats. fold laps. subst avg.
    destruct laps as [|d ds]; [contradiction|]. eauto. }
  split; [exact Ha|]. split; [exact Hr|].
  split.
  { rewrite (timeFields_nonneg avg Ha).
    rewrite timeFields_Z by (apply Qfloor_nonneg, Ha). reflexivity. }
  split; [exact Hs|].
  split; [apply formatTime_renders, Ha|].
  split; [apply formatTime_padded, Ha|].
  split; [reflexivity|].
  split; [split; reflexivity | vm_compute; reflexivity].
Qed.

(** The sequence of laps 1500, -1500, 1520 has the average 1520/3. *)
Lemma average_fields_in_range_witness :
  mixedLaps <> []
  /\ (0 <= avgLap (map SplitTime.duration mixedLaps))%Q
  /\ fieldsInRange (timeFields (avgLap (map SplitTime.duration mixedLaps)))
  /\ formatTime (avgLap (map SplitTime.duration mixedLaps))
     = {| Formatted.hours := "00"; Formatted.minutes := "00";
          Formatted.seconds := "00"; Formatted.milliseconds := "50" |}.
Proof.
  assert (N : (0 <= avgLap (map SplitTime.duration mixedLaps))%Q).
  { unfold Qle. vm_compute. discriminate. }
  split; [discriminate|]. split; [exact N|].
  split; [|vm_compute; reflexivity].
  apply (average_fields_in_range mixedLaps); [discriminate | exact N].
Defined.

(** * Further properties of the code *)

(** ** [parseInt], [toString] and [padStart] *)

Section MoreDecimalStrings.

Import Decimal.

Lemma parseInt_negative_uint (u : uint) :
  u <> Nil ->
  JS.parseInt (String "-" (NilEmpty.string_of_uint u)) = Num (- Z.of_uint u).
Proof.
  intros Hu.
  assert (E : JS.parseInt (String "-" (NilEmpty.string_of_uint u))
              = match JS.radixDigits 10 (NilEmpty.string_of_uint u) with
                | [] => NaN
                | ds => Num (-1 * JS.digitsValue 10 ds)
                end).
  { destruct u as [|u|u|u|u|u|u|u|u|u|u]; try reflexivity.
    destruct u; reflexivity. }
  rewrite E, radixDigits_uint, <- digitsValue_uint.
  destruct u; try contradiction; cbn [uintDigits]; f_equal; lia.
Qed.

Lemma radixDigits_uint_dot (u : uint) (rest : string) :
  JS.radixDigits 10 (NilEmpty.string_of_uint u ++ String "." rest)
  = uintDigits u.
Proof.
  induction u as [|u IH|u IH|u IH|u IH|u IH|u IH|u IH|u IH|u IH|u IH];
    [reflexivity | cbn; rewrite <- IH; reflexivity ..].
Qed.

Lemma parseInt_uint_dot (u : uint) (rest : string) :
  u <> Nil ->
  JS.parseInt (NilEmpty.string_of_uint u ++ String "." rest)
  = Num (Z.of_uint u).
Proof.
  intros Hu.
  assert (E : JS.parseInt (NilEmpty.string_of_uint u ++ String "." rest)
              = match JS.radixDigits 10
                        (NilEmpty.string_of_uint u ++ String "." rest) with
                | [] => NaN
                | ds => Num (1 * JS.digitsValue 10 ds)
                end).
  { destruct u as [|u|u|u|u|u|u|u|u|u|u]; try reflexivity.
    destruct u; reflexivity. }
  rewrite E, radixDigits_uint_dot, <- digitsValue_uint.
  destruct u; try contradiction; cbn [uintDigits]; f_equal; lia.
Qed.

Lemma toString_negative (p : positive) :
  JS.toString (Zneg p) = String "-" (NilEmpty.string_of_uint (Pos.to_uint p)).
Proof.
  unfold JS.toString. cbn [Z.to_int NilZero.string_of_int].
  unfold NilZero.string_of_uint.
  pose proof (DecimalPos.Unsigned.to_uint_nonnil p) as Hn.
  destruct (Pos.to_uint p); try reflexivity. contradiction.
Qed.

(** Printing an integer and reading it back gives the integer, for
    negative ones too. *)
Lemma parseInt_toString (z : Z) : JS.parseInt (JS.toString z) = Num z.
Proof.
  destruct z as [|p|p].
  - reflexivity.
  - rewrite (toString_numeral (Zpos p)) by lia.
    rewrite parseInt_uint_value by apply numeral_nonnil.
    rewrite numeral_value by lia. reflexivity.
  - rewrite toString_negative, parseInt_negative_uint
      by apply DecimalPos.Unsigned.to_uint_nonnil.
    unfold Z.of_uint. rewrite DecimalPos.Unsigned.of_to. reflexivity.
Qed.

(** [parseInt] drops a decimal fraction: a non-negative integer followed
    by a point and anything reads as the integer. *)
Lemma parseInt_drops_fraction (n : Z) (rest : string) :
  0 <= n ->
  JS.parseInt (JS.toString n ++ String "." rest) = Num n.
Proof.
  intros H. rewrite (toString_numeral n H).
  rewrite parseInt_uint_dot by apply numeral_nonnil.
  rewrite numeral_value by exact H. reflexivity.
Qed.

End MoreDecimalStrings.

Lemma string_length_app (a b : string) :
  String.length (a ++ b) = (String.length a + String.length b)%nat.
Proof.
  induction a as [|c a IH]; cbn [append String.length]; [reflexivity|].
  rewrite IH. reflexivity.
Qed.

Lemma substring_prefix_length (k : nat) (t : string) :
  (k <= String.length t)%nat -> String.length (substring 0 k t) = k.
Proof.
  revert t. induction k as [|k IH]; intros t H.
  - destruct t; reflexivity.
  - destruct t as [|c t]; cbn [String.length] in H; [lia|].
    cbn [substring String.length]. rewrite IH by lia. reflexivity.
Qed.

Lemma repeatString_length (k : nat) (p : string) :
  p <> EmptyString -> (k <= String.length (JS.repeatString k p))%nat.
Proof.
  intros Hp. induction k as [|k IH]; cbn [JS.repeatString]; [lia|].
  rewrite string_length_app. destruct p as [|c p]; [contradiction|].
  cbn [String.length]. lia.
Qed.

(** With a non-empty pad string, [padStart] only puts characters in
    front: the result ends with the original string and is as long as the
    longer of the target length and the original; with an empty pad string
    it returns the original. *)
Lemma padStart_length (targetLength : nat) (padString s : string) :
  padString <> EmptyString ->
  (exists filler : string,
      JS.padStart targetLength padString s = (filler ++ s)%string
      /\ String.length filler = (targetLength - String.length s)%nat)
  /\ String.length (JS.padStart targetLength padString s)
     = Nat.max targetLength (String.length s)
  /\ JS.padStart targetLength "" s = s.
Proof.
  intros Hp.
  assert (E : JS.padStart targetLength padString s
              = (substring 0 (targetLength - String.length s)
                   (JS.repeatString (targetLength - String.length s) padString)
                 ++ s)%string).
  { unfold JS.padStart. destruct padString; [contradiction | reflexivity]. }
  assert (L : String.length
                (substring 0 (targetLength - String.length s)
                   (JS.repeatString (targetLength - String.length s) padString))
              = (targetLength - String.length s)%nat).
  { apply substring_prefix_length, repeatString_length, Hp. }
  split; [|split].
  - eexists. split; [exact E | exact L].
  - rewrite E, string_length_app, L. lia.
  - reflexivity.
Qed.

(** ** Target entry (lines 219, 230, 241) *)

Lemma toString_nonempty (z : Z) : exists c r, JS.toString z = String c r.
Proof.
  destruct z as [|p|p].
  - exists "0"%char, EmptyString. reflexivity.
  - rewrite (toString_numeral (Zpos p)) by lia.
    pose proof (numeral_nonnil (Zpos p)) as Hn.
    destruct (numeral (Zpos p)); try contradiction; cbn; eauto.
  - rewrite toString_negative. eauto.
Qed.

(** A stored field reads back as the integer that was typed. *)
Lemma parseInt_padded (z : Z) :
  JS.parseInt (JS.padStart 2 "0" (JS.toString z)) = Num z.
Proof.
  destruct (Z.leb_spec 0 z) as [H|H].
  - apply parseInt_pad2, H.
  - destruct z as [|p|p]; try lia.
    assert (E : JS.padStart 2 "0" (JS.toString (Zneg p))
                = JS.toString (Zneg p)).
    { rewrite toString_negative.
      pose proof (DecimalPos.Unsigned.to_uint_nonnil p) as Hn.
      destruct (Pos.to_uint p); try contradiction; reflexivity. }
    rewrite E. apply parseInt_toString.
Qed.

(** X1: typing three integers into the hours, minutes and seconds boxes,
    whatever the target was before, sets the threshold to
    [h*3600000 + m*60000 + s*1000] (negative entries included), and leaves
    [time], [isRunning] and the splits alone. *)
Theorem typed_target (st : State) (h m s : Z) :
  let st' := run st [ChangeTarget Hours (JS.toString h);
                     ChangeTarget Minutes (JS.toString m);
                     ChangeTarget Seconds (JS.toString s)] in
  targetMs (target st') = Num (h * 3600000 + m * 60000 + s * 1000)
  /\ time st' = time st /\ isRunning st' = isRunning st
  /\ splits st' = splits st /\ lastSplitTime st' = lastSplitTime st.
Proof.
  intros st'. subst st'.
  cbn [run step fst setTarget target time isRunning splits lastSplitTime
       Target.hours Target.minutes Target.seconds].
  unfold targetMs.
  cbn [Target.hours Target.minutes Target.seconds].
  rewrite !parseInt_padded. repeat split.
Qed.

(** X2: a decimal fraction typed into a box is dropped, not rounded: with
    the other two boxes at 00, a seconds box holding a non-negative integer
    [n], a point and anything gives the threshold [n * 1000]. *)
Theorem fraction_in_target_is_dropped (st : State) (n : Z) (rest : string) :
  0 <= n ->
  target st = noTarget ->
  targetMs (target (fst (step st (ChangeTarget Seconds
                                     (JS.toString n ++ String "." rest)))))
  = Num (n * 1000).
Proof.
  intros Hn Ht.
  cbn [step fst setTarget target]. rewrite Ht. unfold targetMs.
  cbn [Target.hours Target.minutes Target.seconds noTarget].
  assert (E : JS.padStart 2 "0" (JS.toString n ++ String "." rest)
              = (JS.toString n ++ String "." rest)%string).
  { destruct (toString_nonempty n) as (c & r & ->).
    destruct r; reflexivity. }
  rewrite E, (parseInt_drops_fraction n rest Hn).
  change (JS.parseInt "00") with (Num 0). cbn [JS.mul JS.add].
  f_equal.
Qed.

Lemma fraction_in_target_is_dropped_witness :
  0 <= 1
  /\ target initial = noTarget
  /\ targetMs (target (fst (step initial
                              (ChangeTarget Seconds
                                 (JS.toString 1 ++ String "." "9")))))
     = Num (1 * 1000).
Proof.
  split; [lia|]. split; [reflexivity|].
  apply (fraction_in_target_is_dropped initial 1 "9"); [lia | reflexivity].
Defined.

(** X3: an edit of one box stores what was typed with zeros put in front
    up to two characters (the stored field ends with the typed text and has
    the length of the longer of 2 and the typed text) and leaves the other
    two boxes as they were. *)
Theorem edit_stores_padded_field (st : State) (f g : Field) (value : string) :
  let st' := fst (step st (ChangeTarget f value)) in
  (exists zeros : string,
      fieldOf f (target st') = (zeros ++ value)%string
      /\ String.length zeros = (2 - String.length value)%nat
      /\ allChars (fun c => (c =? "0")%char) zeros = true)
  /\ String.length (fieldOf f (target st'))
     = Nat.max 2 (String.length value)
  /\ (g <> f -> fieldOf g (target st') = fieldOf g (target st)).
Proof.
  intros st'. subst st'. cbn [step fst setTarget target].
  assert (E : fieldOf f
                match f with
                | Hours =>
                    {| Target.hours := JS.padStart 2 "0" value;
                       Target.minutes := Target.minutes (target st);
                       Target.seconds := Target.seconds (target st) |}
                | Minutes =>
                    {| Target.hours := Target.hours (target st);
                       Target.minutes := JS.padStart 2 "0" value;
                       Target.seconds := Target.seconds (target st) |}
                | Seconds =>
                    {| Target.hours := Target.hours (target st);
                       Target.minutes := Target.minutes (target st);
                       Target.seconds := JS.padStart 2 "0" value |}
                end
              = JS.padStart 2 "0" value)
    by (destruct f; reflexivity).
  rewrite E.
  split; [|split].
  - destruct value as [|c [|c2 r]]; cbn.
    + exists "00"%string. repeat split.
    + exists "0"%string. repeat split.
    + exists EmptyString. repeat split.
  - destruct (padStart_length 2 "0" value) as (_ & L & _); [discriminate|].
    exact L.
  - intros Hg. destruct f, g; try contradiction; reflexivity.
Qed.

(** X4: with a threshold that is zero or negative (for instance after a
    negative entry) the audio is never played, resets included, as long as
    the target is not edited. *)
Theorem nonpositive_target_silent (st : State) (T : Z) (es : list Event) :
  targetMs (target st) = Num T ->
  T <= 0 ->
  forallb keepsTarget es = true ->
  alertCount st es = 0%nat.
Proof.
  intros HT Hle Hes. apply alertCount_never; [|exact Hes].
  intros p n. rewrite HT. unfold alertCondition. cbn [JS.gt].
  destruct (0 <? T) eqn:E; [apply Z.ltb_lt in E; lia | reflexivity].
Qed.

Lemma nonpositive_target_silent_witness :
  targetMs (target (fst (step (startedWith noTarget)
                           (ChangeTarget Seconds (JS.toString (-5))))))
  = Num (-5000)
  /\ -5000 <= 0
  /\ forallb keepsTarget (repeat Tick 50 ++ [ClickReset; ClickStartStop; Tick])
     = true
  /\ alertCount (fst (step (startedWith noTarget)
                        (ChangeTarget Seconds (JS.toString (-5)))))
       (repeat Tick 50 ++ [ClickReset; ClickStartStop; Tick])
     = 0%nat.
Proof.
  split; [reflexivity|]. split; [lia|]. split; [reflexivity|].
  apply (nonpositive_target_silent _ (-5000)); [reflexivity | lia | reflexivity].
Defined.

(** ** Ticks (lines 57-74) *)

(** X5: without a reset, [time] grows by exactly 10 for each tick that
    finds the stopwatch running and by nothing else. *)
Theorem time_counts_ticks (st : State) (es : list Event) :
  forallb (fun e => negb (isReset e)) es = true ->
  time (run st es) = time st + 10 * ticksDelivered st es
  /\ 0 <= ticksDelivered st es <= Z.of_nat (List.length es).
Proof.
  revert st. induction es as [|e es IH]; intros st H.
  - cbn. lia.
  - cbn [forallb] in H. apply andb_prop in H. destruct H as [He Hes].
    apply negb_true_iff in He.
    destruct (IH (fst (step st e)) Hes) as [IHt IHn].
    cbn [run ticksDelivered List.length]. rewrite IHt, (step_time st e He).
    destruct e; try (split; lia).
    destruct (isRunning st); split; lia.
Qed.

Lemma time_counts_ticks_witness :
  forallb (fun e => negb (isReset e))
    [ClickStartStop; Tick; Tick; KeySpace; Tick] = true
  /\ time (run initial [ClickStartStop; Tick; Tick; KeySpace; Tick])
     = time initial
       + 10 * ticksDelivered initial [ClickStartStop; Tick; Tick; KeySpace; Tick].
Proof.
  split; [reflexivity|].
  apply (time_counts_ticks initial [ClickStartStop; Tick; Tick; KeySpace; Tick]).
  reflexivity.
Defined.

Lemma step_time_mod10 (st : State) (e : Event) :
  time st mod 10 = 0 -> time (fst (step st e)) mod 10 = 0.
Proof.
  intros H.
  destruct e; cbn [step fst];
    try (unfold tick; destruct (isRunning st));
    step_fields; cbn [fst time]; try assumption; try reflexivity.
  rewrite Z.add_mod, H by lia. reflexivity.
Qed.

Lemma reachable_time_mod10 (st : State) : reachable st -> time st mod 10 = 0.
Proof.
  intros [es ->].
  assert (G : forall s, time s mod 10 = 0 -> time (run s es) mod 10 = 0).
  { induction es as [|e es IH]; intros s Hs; cbn [run]; [exact Hs|].
    apply IH, step_time_mod10, Hs. }
  apply G. reflexivity.
Qed.

(** X6: in every reachable state [time] is a multiple of 10, so the
    display loses nothing: the four displayed fields read back as numbers
    [h], [m], [s], [c] with [h*3600000 + m*60000 + s*1000 + c*10 = time]. *)
Theorem display_is_exact (st : State) :
  reachable st ->
  time st mod 10 = 0
  /\ exists h m s c,
       JS.parseInt (Formatted.hours (formatTime (inject_Z (time st)))) = Num h
       /\ JS.parseInt (Formatted.minutes (formatTime (inject_Z (time st)))) = Num m
       /\ JS.parseInt (Formatted.seconds (formatTime (inject_Z (time st)))) = Num s
       /\ JS.parseInt (Formatted.milliseconds (formatTime (inject_Z (time st))))
          = Num c
       /\ h * 3600000 + m * 60000 + s * 1000 + c * 10 = time st.
Proof.
  intros Hr. pose proof (reachable_time_mod10 st Hr) as Hm.
  destruct (reachable_coherent st Hr) as [_ _ Ht _].
  split; [exact Hm|].
  assert (Hq : (0 <= inject_Z (time st))%Q).
  { change 0%Q with (inject_Z 0). rewrite <- Zle_Qle. exact Ht. }
  destruct (formatTime_renders _ Hq) as ((_ & P1) & (_ & P2) & (_ & P3) & (_ & P4)).
  exists (f_hours (timeFields (inject_Z (time st)))),
         (f_minutes (timeFields (inject_Z (time st)))),
         (f_seconds (timeFields (inject_Z (time st)))),
         (f_milliseconds (timeFields (inject_Z (time st)))).
  repeat split; try assumption.
  rewrite (timeFields_Z _ Ht). cbn [f_hours f_minutes f_seconds f_milliseconds].
  generalize dependent (time st). intros t Hm Ht _.
  Z.to_euclidean_division_equations. lia.
Qed.

Lemma display_is_exact_witness :
  reachable (run initial [ClickStartStop; Tick; Tick; Tick])
  /\ time (run initial [ClickStartStop; Tick; Tick; Tick]) mod 10 = 0.
Proof.
  split; [eexists; reflexivity|].
  apply (display_is_exact (run initial [ClickStartStop; Tick; Tick; Tick])).
  eexists; reflexivity.
Defined.

(** ** Start/pause, reset and the keyboard (lines 76-101) *)

Lemma paused_step (st : State) (e : Event) :
  isRunning st = false ->
  r_isRunning (keydown st) = false ->
  keepsPaused e = true ->
  snd (step st e) = false
  /\ time (fst (step st e)) = time st
  /\ isRunning (fst (step st e)) = false
  /\ splits (fst (step st e)) = splits st
  /\ lastSplitTime (fst (step st e)) = lastSplitTime st
  /\ keydown (fst (step st e)) = keydown st.
Proof.
  intros Hs Hk He.
  destruct e; try discriminate; cbn [step fst snd];
    unfold tick, handleSplit, render, keydownEffect; cbn [r_isRunning];
    rewrite ?Hs, ?Hk; cbn [Bool.eqb setTarget isRunning time splits
                           lastSplitTime keydown fst snd];
    rewrite ?Hs; cbn [Bool.eqb]; repeat split; assumption.
Qed.

(** X7: while the stopwatch is stopped, ticks, split requests (button or
    key) and target edits change neither [time], nor the splits, nor
    [lastSplitTime.current], leave it stopped and play nothing. *)
Theorem frozen_while_stopped (st : State) (es : list Event) :
  reachable st ->
  isRunning st = false ->
  forallb keepsPaused es = true ->
  time (run st es) = time st
  /\ isRunning (run st es) = false
  /\ splits (run st es) = splits st
  /\ lastSplitTime (run st es) = lastSplitTime st
  /\ alertCount st es = 0%nat.
Proof.
  intros Hr Hs Hes.
  destruct (reachable_coherent st Hr) as [Hk _ _ _]. rewrite Hs in Hk.
  clear Hr. revert st Hs Hk.
  induction es as [|e es IH]; intros st Hs Hk; cbn [run alertCount].
  - repeat split; assumption.
  - cbn [forallb] in Hes. apply andb_prop in Hes. destruct Hes as [He Hes].
    destruct (paused_step st e Hs Hk He) as (Ha & Ht & Hi & Hsp & Hl & Hkd).
    destruct (IH Hes (fst (step st e)) Hi) as (I1 & I2 & I3 & I4 & I5).
    { rewrite Hkd. exact Hk. }
    rewrite Ha, I1, I3, I4, I5. repeat split; assumption.
Qed.

Lemma frozen_while_stopped_witness :
  reachable (run initial pausedAfterSplit)
  /\ isRunning (run initial pausedAfterSplit) = false
  /\ forallb keepsPaused [Tick; KeyS clock; ClickSplit clock; Tick] = true
  /\ time (run (run initial pausedAfterSplit)
             [Tick; KeyS clock; ClickSplit clock; Tick])
     = time (run initial pausedAfterSplit).
Proof.
  split; [exists pausedAfterSplit; reflexivity|].
  split; [reflexivity|]. split; [reflexivity|].
  apply (frozen_while_stopped (run initial pausedAfterSplit)
           [Tick; KeyS clock; ClickSplit clock; Tick]);
    [exists pausedAfterSplit; reflexivity | reflexivity | reflexivity].
Defined.

(** X11: in every reachable state the Space key does exactly what the
    start/pause button does, and the R key what the reset button does; both
    flip or clear [isRunning] as the handlers say. *)
Theorem keys_match_buttons (st : State) :
  reachable st ->
  step st KeySpace = step st ClickStartStop
  /\ step st KeyR = step st ClickReset
  /\ isRunning (fst (step st KeySpace)) = negb (isRunning st)
  /\ time (fst (step st KeySpace)) = time st
  /\ splits (fst (step st KeySpace)) = splits st
  /\ keydown (fst (step st KeySpace)) = render (fst (step st KeySpace)).
Proof.
  intros Hr. destruct (reachable_coherent st Hr) as [Hk _ _ _].
  assert (E : step st KeySpace = step st ClickStartStop).
  { cbn [step]. unfold handleStartStop, render. cbn [r_isRunning].
    rewrite Hk. reflexivity. }
  split; [exact E|]. split; [reflexivity|]. rewrite E.
  cbn [step fst]. step_fields.
  repeat split.
  unfold keydownEffect, handleStartStop, render.
  cbn [isRunning r_isRunning]. destruct (isRunning st); reflexivity.
Qed.

Lemma keys_match_buttons_witness :
  reachable (run initial pausedAfterSplit)
  /\ step (run initial pausedAfterSplit) KeySpace
     = step (run initial pausedAfterSplit) ClickStartStop.
Proof.
  split; [exists pausedAfterSplit; reflexivity|].
  apply (keys_match_buttons (run initial pausedAfterSplit)).
  exists pausedAfterSplit. reflexivity.
Defined.

(** X12: a reset re-arms the alert: after a reset at any moment, a run
    with target [T > 0] plays the audio once if it reaches [T] and not at
    all if it stops short. *)
Theorem reset_rearms_alert (st : State) (T : Z) (es : list Event) :
  targetMs (target st) = Num T ->
  0 < T ->
  forallb keepsRun es = true ->
  alertCount (fst (step st ClickReset)) es
  = (if T <=? time (run (fst (step st ClickReset)) es) then 1%nat else 0%nat)
  /\ alertCount (fst (step st KeyR)) es
     = (if T <=? time (run (fst (step st KeyR)) es) then 1%nat else 0%nat).
Proof.
  intros HT Hpos Hes.
  assert (G : alertCount (fst (step st ClickReset)) es
              = if T <=? time (run (fst (step st ClickReset)) es)
                then 1%nat else 0%nat).
  { rewrite (alertCount_run _ T es); [|cbn [step fst]; step_fields; exact HT
                                      | exact Hes].
    assert (E0 : time (fst (step st ClickReset)) = 0)
      by (cbn [step fst]; step_fields; reflexivity).
    rewrite E0.
    assert (E1 : (0 <? T) = true) by (apply Z.ltb_lt; exact Hpos).
    rewrite E1. reflexivity. }
  split; exact G.
Qed.

Lemma reset_rearms_alert_witness :
  targetMs (target (run (startedWith fiveSeconds) (repeat Tick 600))) = Num 5000
  /\ 0 < 5000
  /\ forallb keepsRun (ClickStartStop :: repeat Tick 600) = true
  /\ alertCount (fst (step (run (startedWith fiveSeconds) (repeat Tick 600))
                        ClickReset))
       (ClickStartStop :: repeat Tick 600)
     = 1%nat.
Proof.
  split; [reflexivity|]. split; [lia|]. split; [reflexivity|].
  exact (proj1 (reset_rearms_alert
                  (run (startedWith fiveSeconds) (repeat Tick 600)) 5000
                  (ClickStartStop :: repeat Tick 600)
                  eq_refl eq_refl eq_refl)).
Defined.

(** ** The split list (lines 103-120) *)

(** X8: without a reset the split list only grows at its end: earlier
    splits stay as they are, and one split is added, carrying its
    [Date.now()] reading, for each split request whose handler sees the
    stopwatch running. *)
Theorem splits_append_only (st : State) (es : list Event) :
  forallb (fun e => negb (isReset e)) es = true ->
  exists added,
    splits (run st es) = splits st ++ added
    /\ map SplitTime.id added = splitReadings st es.
Proof.
  revert st. induction es as [|e es IH]; intros st H.
  - exists []. cbn. rewrite app_nil_r. auto.
  - cbn [forallb] in H. apply andb_prop in H. destruct H as [He Hes].
    destruct (IH (fst (step st e)) Hes) as (added & Ea & Ei).
    cbn [run splitReadings]. rewrite Ea, <- Ei. clear Ea Ei IH.
    destruct e; try discriminate; cbn [step fst app];
      unfold tick, handleSplit, render; cbn [r_isRunning r_time];
      try destruct (isRunning st); try destruct (r_isRunning (keydown st));
      step_fields;
      try (exists added; split; reflexivity);
      (eexists; split; [rewrite <- app_assoc; reflexivity | reflexivity]).
Qed.

Lemma splits_append_only_witness :
  forallb (fun e => negb (isReset e))
    [Tick; ClickSplit clock; KeySpace; KeyS clock] = true
  /\ exists added,
       splits (run (startedWith fiveSeconds)
                 [Tick; ClickSplit clock; KeySpace; KeyS clock])
       = splits (startedWith fiveSeconds) ++ added
       /\ map SplitTime.id added
          = splitReadings (startedWith fiveSeconds)
              [Tick; ClickSplit clock; KeySpace; KeyS clock].
Proof.
  split; [reflexivity|].
  apply (splits_append_only (startedWith fiveSeconds)
           [Tick; ClickSplit clock; KeySpace; KeyS clock]).
  reflexivity.
Defined.

Lemma fold_right_add_app (l : list Z) (d : Z) :
  fold_right Z.add 0 (l ++ [d]) = fold_right Z.add 0 l + d.
Proof.
  induction l as [|x l IH]; cbn [app fold_right]; lia.
Qed.

Lemma boundaries_app (prev : Z) (l : list Z) (d : Z) :
  boundaries prev (l ++ [d])
  = boundaries prev l ++ [prev + fold_right Z.add 0 l + d].
Proof.
  revert prev. induction l as [|x l IH]; intros prev; cbn [app boundaries fold_right].
  - f_equal. f_equal. lia.
  - rewrite IH. do 3 f_equal. lia.
Qed.

Lemma initial_ledger : Ledger initial.
Proof. split; reflexivity. Qed.

Lemma handleSplit_ledger (r : Render) (now : Z) (st : State) :
  Ledger st -> Ledger (handleSplit r now st).
Proof.
  intros [Hs Hl Ht]. unfold handleSplit.
  destruct (r_isRunning r); [|split; assumption].
  unfold durations in *. split; unfold durations;
    cbn [splits lastSplitTime]; rewrite !map_app; cbn [map SplitTime.duration
      SplitTime.lap SplitTime.time].
  - rewrite fold_right_add_app, Hs. lia.
  - rewrite Hl. reflexivity.
  - rewrite boundaries_app, map_app, Ht, Hs. cbn [map]. unfold timeLabel.
    replace (0 + lastSplitTime st + (r_time r - lastSplitTime st))
      with (r_time r) by lia.
    reflexivity.
Qed.

Lemma step_ledger (st : State) (e : Event) :
  Ledger st -> Ledger (fst (step st e)).
Proof.
  intros H.
  assert (K : forall a b, Ledger b -> Ledger (keydownEffect a b)).
  { intros a b [Hs Hl Ht]. unfold durations in *.
    split; unfold durations; step_fields; assumption. }
  destruct e; cbn [step fst]; try apply K;
    try apply handleSplit_ledger; try exact H;
    try (split; reflexivity).
  - unfold tick. destruct (isRunning st); [|exact H].
    destruct H as [Hs Hl Ht]. split; assumption.
  - destruct H as [Hs Hl Ht]. split; assumption.
  - destruct H as [Hs Hl Ht]. split; assumption.
  - destruct H as [Hs Hl Ht]. destruct f; split; assumption.
Qed.

Lemma reachable_ledger (st : State) : reachable st -> Ledger st.
Proof.
  intros [es ->].
  assert (G : forall s, Ledger s -> Ledger (run s es)).
  { induction es as [|e es IH]; intros s Hs; cbn [run]; [exact Hs|].
    apply IH, step_ledger, Hs. }
  apply G, initial_ledger.
Qed.

(** X9: in every reachable state the recorded laps add up to
    [lastSplitTime.current], hence to at most [time]. *)
Theorem laps_sum_to_boundary (st : State) :
  reachable st ->
  sumLaps (durations st) = lastSplitTime st
  /\ 0 <= sumLaps (durations st) <= time st.
Proof.
  intros Hr. destruct (reachable_ledger st Hr) as [Hs _ _].
  destruct (reachable_coherent st Hr) as [_ _ _ Hb].
  rewrite sumLaps_sum, Hs. split; [reflexivity | exact Hb].
Qed.

Lemma laps_sum_to_boundary_witness :
  reachable (run initial pausedAfterSplit)
  /\ sumLaps (durations (run initial pausedAfterSplit))
     = lastSplitTime (run initial pausedAfterSplit).
Proof.
  split; [exists pausedAfterSplit; reflexivity|].
  apply (laps_sum_to_boundary (run initial pausedAfterSplit)).
  exists pausedAfterSplit. reflexivity.
Defined.

(** X10: in every reachable state the labels of the split list agree with
    the stored laps: each lap label is the formatted lap, and the total-time
    label of the i-th split is the formatted sum of the first i laps. *)
Theorem split_labels_match_laps (st : State) :
  reachable st ->
  map SplitTime.lap (splits st) = map timeLabel (durations st)
  /\ map SplitTime.time (splits st)
     = map timeLabel (boundaries 0 (durations st)).
Proof.
  intros Hr. destruct (reachable_ledger st Hr) as [_ Hl Ht]. auto.
Qed.

Lemma split_labels_match_laps_witness :
  reachable (run initial pausedAfterSplit)
  /\ map SplitTime.lap (splits (run initial pausedAfterSplit))
     = map timeLabel (durations (run initial pausedAfterSplit)).
Proof.
  split; [exists pausedAfterSplit; reflexivity|].
  apply (split_labels_match_laps (run initial pausedAfterSplit)).
  exists pausedAfterSplit. reflexivity.
Defined.

(** ** Labels (lines 108-109) *)

Lemma label_length (f : Formatted.t) :
  String.length (label f)
  = (String.length (Formatted.hours f) + String.length (Formatted.minutes f)
     + String.length (Formatted.seconds f)
     + String.length (Formatted.milliseconds f) + 3)%nat.
Proof.
  unfold label. rewrite !string_length_app. cbn [String.length]. lia.
Qed.

(** X18: the label of a non-negative integer time has at least 11
    characters, and exactly 11 (hh:mm:ss.cc) below 100 hours. *)
Theorem timeLabel_width (e : Z) :
  0 <= e ->
  (11 <= String.length (timeLabel e))%nat
  /\ (e < 360000000 -> String.length (timeLabel e) = 11%nat).
Proof.
  intros He. unfold timeLabel. rewrite label_length.
  unfold formatTime.
  cbn [Formatted.hours Formatted.minutes Formatted.seconds
       Formatted.milliseconds].
  rewrite (timeFields_Z e He).
  cbn [f_hours f_minutes f_seconds f_milliseconds].
  rewrite (pad2_two_chars ((e mod 3600000) / 60000))
    by (Z.to_euclidean_division_equations; lia).
  rewrite (pad2_two_chars ((e mod 60000) / 1000))
    by (Z.to_euclidean_division_equations; lia).
  rewrite (pad2_two_chars ((e mod 1000) / 10))
    by (Z.to_euclidean_division_equations; lia).
  split.
  - pose proof (padStart2_length (JS.toString (e / 3600000))) as H.
    unfold pad2. lia.
  - intros Hlt. rewrite (pad2_two_chars (e / 3600000))
      by (Z.to_euclidean_division_equations; lia).
    reflexivity.
Qed.

Lemma timeLabel_width_witness :
  0 <= 3723450 /\ (11 <= String.length (timeLabel 3723450))%nat.
Proof.
  split; [lia | apply (timeLabel_width 3723450); lia].
Defined.

(** ** Statistics (lines 42-55) *)

Lemma sum_lower_bound (m : Z) (l : list Z) :
  Forall (fun x => m <= x) l ->
  m * Z.of_nat (List.length l) <= fold_right Z.add 0 l.
Proof.
  induction 1 as [|x l Hx _ IH]; cbn [List.length fold_right]; lia.
Qed.

Lemma sum_upper_bound (m : Z) (l : list Z) :
  Forall (fun x => x <= m) l ->
  fold_right Z.add 0 l <= m * Z.of_nat (List.length l).
Proof.
  induction 1 as [|x l Hx _ IH]; cbn [List.length fold_right]; lia.
Qed.

(** X13: the average lap lies between the best and the worst lap. *)
Theorem average_between_best_and_worst (d : Z) (ds : list Z) :
  (inject_Z (Math_min d ds) <= avgLap (d :: ds))%Q
  /\ (avgLap (d :: ds) <= inject_Z (Math_max d ds))%Q
  /\ Math_min d ds <= Math_max d ds.
Proof.
  destruct (Math_min_spec d ds) as [_ Hmin].
  destruct (Math_max_spec d ds) as [_ Hmax].
  pose proof (sum_lower_bound _ _ Hmin) as Hlo.
  pose proof (sum_upper_bound _ _ Hmax) as Hhi.
  assert (Hlen : (0 < inject_Z (Z.of_nat (List.length (d :: ds))))%Q).
  { change 0%Q with (inject_Z 0). rewrite <- Zlt_Qlt. cbn [List.length]. lia. }
  unfold avgLap. rewrite sumLaps_sum. split; [|split].
  - apply Qle_shift_div_l; [exact Hlen|].
    rewrite <- inject_Z_mult, <- Zle_Qle. exact Hlo.
  - apply Qle_shift_div_r; [exact Hlen|].
    rewrite <- inject_Z_mult, <- Zle_Qle. exact Hhi.
  - inversion Hmin; inversion Hmax; subst. lia.
Qed.

Lemma Qtrunc_comp (q q' : Q) : (q == q')%Q -> JS.Qtrunc q = JS.Qtrunc q'.
Proof.
  intros E. unfold JS.Qtrunc, Qceiling.
  assert (B : Qle_bool 0 q = Qle_bool 0 q').
  { destruct (Qle_bool 0 q) eqn:A, (Qle_bool 0 q') eqn:A'; try reflexivity.
    - apply Qle_bool_iff in A. rewrite E in A. apply Qle_bool_iff in A.
      congruence.
    - apply Qle_bool_iff in A'. rewrite <- E in A'. apply Qle_bool_iff in A'.
      congruence. }
  rewrite B, (Qfloor_comp _ _ E).
  assert (E' : (- q == - q')%Q) by (rewrite E; reflexivity).
  rewrite (Qfloor_comp _ _ E'). reflexivity.
Qed.

Lemma rem_comp (q q' m : Q) : (q == q')%Q -> (JS.rem q m == JS.rem q' m)%Q.
Proof.
  intros E. unfold JS.rem.
  assert (Ed : (q / m == q' / m)%Q) by (rewrite E; reflexivity).
  rewrite (Qtrunc_comp _ _ Ed), E. reflexivity.
Qed.

(** [formatTime] does not depend on how a rational is written. *)
Lemma formatTime_comp (q q' : Q) : (q == q')%Q -> formatTime q = formatTime q'.
Proof.
  intros E. unfold formatTime, timeFields.
  cbn [f_hours f_minutes f_seconds f_milliseconds].
  assert (E0 : (q / 3600000 == q' / 3600000)%Q) by (rewrite E; reflexivity).
  assert (E1 : (JS.rem q 3600000 / 60000 == JS.rem q' 3600000 / 60000)%Q)
    by (rewrite (rem_comp q q' _ E); reflexivity).
  assert (E2 : (JS.rem q 60000 / 1000 == JS.rem q' 60000 / 1000)%Q)
    by (rewrite (rem_comp q q' _ E); reflexivity).
  assert (E3 : (JS.rem q 1000 / 10 == JS.rem q' 1000 / 10)%Q)
    by (rewrite (rem_comp q q' _ E); reflexivity).
  rewrite (Qfloor_comp _ _ E0), (Qfloor_comp _ _ E1),
    (Qfloor_comp _ _ E2), (Qfloor_comp _ _ E3).
  reflexivity.
Qed.

Lemma equal_laps_min (d : Z) (ds : list Z) :
  Forall (fun x => x = d) ds -> Math_min d ds = d /\ Math_max d ds = d.
Proof.
  unfold Math_min, Math_max.
  induction 1 as [|x l Hx _ IH]; cbn [fold_left]; [auto|].
  subst x. rewrite Z.min_id, Z.max_id. exact IH.
Qed.

Lemma equal_laps_sum (d : Z) (l : list Z) :
  Forall (fun x => x = d) l ->
  fold_right Z.add 0 l = d * Z.of_nat (List.length l).
Proof.
  induction 1 as [|x l Hx _ IH]; cbn [List.length fold_right]; lia.
Qed.

(** X14: when all laps are the same, in particular with a single split,
    the average, the best and the worst shown are all that lap. *)
Theorem equal_laps_stats (splits : list SplitTime.t) (d : Z) :
  splits <> [] ->
  Forall (fun s => SplitTime.duration s = d) splits ->
  calculateStats splits
  = Some {| Stats.average := formatTime (inject_Z d);
            Stats.best := formatTime (inject_Z d);
            Stats.worst := formatTime (inject_Z d) |}.
Proof.
  intros Hne Hall.
  assert (Hl : Forall (fun x => x = d) (map SplitTime.duration splits))
    by (apply Forall_map; exact Hall).
  unfold calculateStats.
  destruct (map SplitTime.duration splits) as [|x xs] eqn:E.
  { destruct splits; [contradiction | discriminate]. }
  inversion Hl as [|? ? Hx Hxs]; subst.
  destruct (equal_laps_min _ _ Hxs) as [-> ->].
  assert (Ea : (avgLap (d :: xs) == inject_Z d)%Q).
  { unfold avgLap. rewrite sumLaps_sum, (equal_laps_sum d (d :: xs) Hl).
    rewrite inject_Z_mult. apply Qdiv_mult_l.
    intros Z0. unfold Qeq in Z0. cbn in Z0. lia. }
  rewrite (formatTime_comp _ _ Ea). reflexivity.
Qed.

Lemma equal_laps_stats_witness :
  [SplitTime.mk clock "00:00:01.50" 1500 "00:00:01.50"] <> []
  /\ Forall (fun s => SplitTime.duration s = 1500)
       [SplitTime.mk clock "00:00:01.50" 1500 "00:00:01.50"]
  /\ calculateStats [SplitTime.mk clock "00:00:01.50" 1500 "00:00:01.50"]
     = Some {| Stats.average := formatTime (inject_Z 1500);
               Stats.best := formatTime (inject_Z 1500);
               Stats.worst := formatTime (inject_Z 1500) |}.
Proof.
  assert (F : Forall (fun s => SplitTime.duration s = 1500)
                [SplitTime.mk clock "00:00:01.50" 1500 "00:00:01.50"])
    by (repeat constructor).
  split; [discriminate|]. split; [exact F|].
  apply (equal_laps_stats _ 1500); [discriminate | exact F].
Defined.

(** ** Session Exporter (lines 122-159) *)

Lemma splitRows_length (index : Z) (l : list SplitTime.t) :
  List.length (splitRows index l) = List.length l.
Proof.
  revert index. induction l as [|s l IH]; intros index; cbn [splitRows List.length];
    [reflexivity | rewrite IH; reflexivity].
Qed.

Lemma splitRows_nth (index : Z) (l : list SplitTime.t) (i : nat)
    (split : SplitTime.t) :
  nth_error l i = Some split ->
  nth_error (splitRows index l) i
  = Some [Number (index + Z.of_nat i + 1); Text (SplitTime.time split);
          Text (SplitTime.lap split)].
Proof.
  revert index i. induction l as [|s l IH]; intros index i H.
  - destruct i; discriminate.
  - destruct i as [|i]; cbn [nth_error splitRows] in *.
    + inversion H; subst. do 3 f_equal. lia.
    + rewrite (IH (index + 1) i H). do 3 f_equal. lia.
Qed.

(** X15: the exported sheet has eleven heading rows followed by one row
    per split, in the order of the split list: the row of the i-th split
    (counting from 0) is its number [i + 1], its total-time label and its
    lap label; the total-time row shows the formatted [time]. *)
Theorem export_rows (currentDate : string) (st : State)
    (i : nat) (split : SplitTime.t) :
  nth_error (splits st) i = Some split ->
  let wb := handleExportExcel currentDate st in
  List.length (rows wb) = (11 + List.length (splits st))%nat
  /\ nth_error (rows wb) (11 + i)
     = Some [Number (Z.of_nat i + 1); Text (SplitTime.time split);
             Text (SplitTime.lap split)]
  /\ nth_error (rows wb) 2
     = Some [Text "Total Time"; Text (timeLabel (time st))]
  /\ nth_error (rows wb) 0
     = Some [Text ("Stopwatch Session - " ++ currentDate)].
Proof.
  intros H wb. subst wb. cbn [handleExportExcel rows]. unfold wsData.
  split; [|split; [|split; reflexivity]].
  - rewrite List.length_app, splitRows_length. reflexivity.
  - rewrite nth_error_app2 by (cbn [List.length]; lia).
    cbn [List.length].
    replace (11 + i - 11)%nat with i by lia.
    rewrite (splitRows_nth 0 _ i split H). reflexivity.
Qed.

Lemma export_rows_witness :
  nth_error (splits (run initial pausedAfterSplit)) 0
  = Some (SplitTime.mk 1700000000000 "00:00:00.03" 30 "00:00:00.03")
  /\ nth_error (rows (handleExportExcel "1/2/2025, 3:04:05 PM"
                        (run initial pausedAfterSplit))) 11
     = Some [Number 1; Text "00:00:00.03"; Text "00:00:00.03"].
Proof.
  split; [reflexivity|].
  exact (proj1 (proj2 (export_rows "1/2/2025, 3:04:05 PM"
                         (run initial pausedAfterSplit) 0
                         (SplitTime.mk 1700000000000 "00:00:00.03" 30
                            "00:00:00.03")
                         eq_refl))).
Defined.

(** X16: with at least one split, the only case in which the export
    button is shown, the three statistics cells are the full labels of the
    average, best and worst lap; called with no split, each of them reads
    undefined:undefined:undefined.undefined. *)
Theorem export_statistics (currentDate : string) (st : State) :
  let wb := handleExportExcel currentDate st in
  match durations st with
  | [] =>
      exportShown st = false
      /\ nth_error (rows wb) 5
         = Some [Text "Average Lap";
                 Text "undefined:undefined:undefined.undefined"]
      /\ nth_error (rows wb) 6
         = Some [Text "Best Lap";
                 Text "undefined:undefined:undefined.undefined"]
      /\ nth_error (rows wb) 7
         = Some [Text "Worst Lap";
                 Text "undefined:undefined:undefined.undefined"]
  | d :: ds =>
      exportShown st = true
      /\ nth_error (rows wb) 5
         = Some [Text "Average Lap";
                 Text (label (formatTime (avgLap (d :: ds))))]
      /\ nth_error (rows wb) 6
         = Some [Text "Best Lap";
                 Text (label (formatTime (inject_Z (Math_min d ds))))]
      /\ nth_error (rows wb) 7
         = Some [Text "Worst Lap";
                 Text (label (formatTime (inject_Z (Math_max d ds))))]
  end.
Proof.
  intros wb. subst wb. cbn [handleExportExcel rows]. unfold wsData.
  cbn [app nth_error]. unfold exportShown, calculateStats, durations.
  destruct (splits st) as [|s l]; cbn [map List.length Nat.eqb negb].
  - repeat split.
  - repeat split.
Qed.

Lemma replaceUnsafe_safe (s : string) :
  allChars (fun c => negb (isUnsafe c)) (replaceUnsafe s) = true.
Proof.
  induction s as [|c s IH]; cbn [replaceUnsafe allChars]; [reflexivity|].
  rewrite IH, andb_true_r.
  destruct (isUnsafe c) eqn:E; [reflexivity | rewrite E; reflexivity].
Qed.

Lemma replaceUnsafe_length (s : string) :
  String.length (replaceUnsafe s) = String.length s.
Proof.
  induction s as [|c s IH]; cbn [replaceUnsafe String.length];
    [reflexivity | rewrite IH; reflexivity].
Qed.

Lemma replaceUnsafe_id (s : string) :
  allChars (fun c => negb (isUnsafe c)) s = true -> replaceUnsafe s = s.
Proof.
  induction s as [|c s IH]; cbn [replaceUnsafe allChars]; [reflexivity|].
  intros H. apply andb_prop in H. destruct H as [Hc Hs].
  apply negb_true_iff in Hc. rewrite Hc, (IH Hs). reflexivity.
Qed.

Lemma isUnsafe_iff (c : ascii) :
  isUnsafe c = true <-> c = "/"%char \/ c = ":"%char \/ c = "\"%char.
Proof.
  unfold isUnsafe. rewrite !orb_true_iff, !Ascii.eqb_eq. tauto.
Qed.

Lemma replaceUnsafe_get (s : string) (i : nat) :
  String.get i (replaceUnsafe s)
  = match String.get i s with
    | Some c => Some (if isUnsafe c then "-"%char else c)
    | None => None
    end.
Proof.
  revert i. induction s as [|c s IH]; intros i; cbn [replaceUnsafe String.get].
  - reflexivity.
  - destruct i as [|i]; [reflexivity | apply IH].
Qed.

(** X17: whatever the date string, the exported file name is
    [stopwatch-session-], then the date in which every slash, colon and
    backslash is replaced by a dash and every other character is kept in
    its place, then [.xlsx]; so it contains none of these three characters;
    a clean date is kept as it is and the replacement is idempotent. *)
Theorem export_fileName_safe (currentDate : string) (st : State) :
  (exists body : string,
      fileName (handleExportExcel currentDate st)
      = ("stopwatch-session-" ++ body ++ ".xlsx")%string
      /\ String.length body = String.length currentDate
      /\ forall i,
           String.get i body
           = match String.get i currentDate with
             | Some c =>
                 Some (if (c =? "/")%char || (c =? ":")%char || (c =? "\")%char
                       then "-"%char else c)
             | None => None
             end)
  /\ (forall c, isUnsafe c = true
                <-> c = "/"%char \/ c = ":"%char \/ c = "\"%char)
  /\ allChars (fun c => negb (isUnsafe c))
       (fileName (handleExportExcel currentDate st)) = true
  /\ String.length (fileName (handleExportExcel currentDate st))
     = (23 + String.length currentDate)%nat
  /\ (allChars (fun c => negb (isUnsafe c)) currentDate = true ->
      fileName (handleExportExcel currentDate st)
      = ("stopwatch-session-" ++ currentDate ++ ".xlsx")%string)
  /\ replaceUnsafe (replaceUnsafe currentDate) = replaceUnsafe currentDate
  /\ fileName (handleExportExcel "1/2/2025, 3:04:05 PM" st)
     = "stopwatch-session-1-2-2025, 3-04-05 PM.xlsx"%string.
Proof.
  cbn [handleExportExcel fileName].
  split.
  { exists (replaceUnsafe currentDate).
    split; [reflexivity|]. split; [apply replaceUnsafe_length|].
    intros i. apply replaceUnsafe_get. }
  split; [apply isUnsafe_iff|].
  split; [rewrite !allChars_app, replaceUnsafe_safe; reflexivity|].
  split.
  { rewrite !string_length_app, replaceUnsafe_length. cbn [String.length]. lia. }
  split.
  { intros H. rewrite (replaceUnsafe_id _ H). reflexivity. }
  split; [apply replaceUnsafe_id, replaceUnsafe_safe | reflexivity].
Qed.

(** ** Splits taken with the S key during a run (lines 76-90, 103-120) *)

Lemma run_app (st : State) (a b : list Event) :
  run st (a ++ b) = run (run st a) b.
Proof.
  revert st. induction a as [|e a IH]; intros st; cbn [app run];
    [reflexivity | apply IH].
Qed.

Lemma run_ticks (st : State) (n : nat) :
  isRunning st = true ->
  run st (repeat Tick n)
  = {| time := time st + 10 * Z.of_nat n; isRunning := true;
       splits := splits st; target := target st;
       lastSplitTime := lastSplitTime st; keydown := keydown st |}.
Proof.
  revert st. induction n as [|n IH]; intros st Hr.
  - destruct st; cbn in *. subst. f_equal. lia.
  - cbn [repeat run step]. unfold tick at 1. rewrite Hr. cbn [fst].
    rewrite IH by reflexivity. cbn [time splits target lastSplitTime keydown].
    f_equal. lia.
Qed.

(** X19: a split taken with the S key during a run records the moment the
    run was started, however many ticks have passed since: its total-time
    label and its lap are those of the [time] at which start was pressed,
    and [lastSplitTime.current] is set back to that [time]. *)
Theorem key_split_records_start_time (st : State) (n : nat) (now : Z) :
  isRunning st = false ->
  let st' := run st (ClickStartStop :: repeat Tick n ++ [KeyS now]) in
  time st' = time st + 10 * Z.of_nat n
  /\ splits st'
     = splits st
       ++ [ {| SplitTime.id := now;
               SplitTime.time := timeLabel (time st);
               SplitTime.duration := time st - lastSplitTime st;
               SplitTime.lap := timeLabel (time st - lastSplitTime st) |} ]
  /\ lastSplitTime st' = time st.
Proof.
  intros Hs st'. subst st'.
  cbn [run step fst]. rewrite run_app.
  assert (E : keydownEffect st (handleStartStop (render st) st)
              = {| time := time st; isRunning := true; splits := splits st;
                   target := target st; lastSplitTime := lastSplitTime st;
                   keydown := {| r_time := time st; r_isRunning := true |} |}).
  { unfold keydownEffect, handleStartStop, render.
    cbn [isRunning r_isRunning time splits target lastSplitTime].
    rewrite Hs. reflexivity. }
  rewrite E, run_ticks by reflexivity.
  cbn [run step fst time splits target lastSplitTime keydown].
  unfold handleSplit. cbn [keydown r_isRunning r_time lastSplitTime splits
                           time isRunning target].
  unfold keydownEffect. cbn [isRunning Bool.eqb time splits lastSplitTime].
  repeat split.
Qed.

Lemma key_split_records_start_time_witness :
  isRunning (run initial pausedAfterSplit) = false
  /\ lastSplitTime (run (run initial pausedAfterSplit)
                      (ClickStartStop :: repeat Tick 100 ++ [KeyS clock]))
     = time (run initial pausedAfterSplit).
Proof.
  split; [reflexivity|].
  apply (key_split_records_start_time (run initial pausedAfterSplit) 100 clock).
  reflexivity.
Defined.

(** ** Splits taken with the button: witnesses *)

Lemma click_splits_laps_witness :
  forallb (fun e => negb (isReset e) && negb (isKeySplit e))
    (splitAt1500 (ClickSplit clock) ++ repeat Tick 270 ++ [ClickSplit clock])
  = true
  /\ durations (run initial (splitAt1500 (ClickSplit clock)
                             ++ repeat Tick 270 ++ [ClickSplit clock]))
     = durations initial
       ++ diffs (lastSplitTime initial)
            (clickSplitTimes initial
               (splitAt1500 (ClickSplit clock)
                ++ repeat Tick 270 ++ [ClickSplit clock])).
Proof.
  split; [reflexivity|].
  apply (click_splits_laps initial
           (splitAt1500 (ClickSplit clock)
            ++ repeat Tick 270 ++ [ClickSplit clock])).
  reflexivity.
Defined.

Lemma click_runs_nonneg_laps_witness :
  forallb (fun e => negb (isKeySplit e))
    [ClickStartStop; Tick; ClickSplit clock; ClickReset; KeySpace; Tick;
     ClickSplit clock] = true
  /\ Forall (fun d => 0 <= d)
       (durations (run initial
                     [ClickStartStop; Tick; ClickSplit clock; ClickReset;
                      KeySpace; Tick; ClickSplit clock])).
Proof.
  split; [reflexivity|].
  apply (click_runs_nonneg_laps
           [ClickStartStop; Tick; ClickSplit clock; ClickReset; KeySpace; Tick;
            ClickSplit clock]).
  reflexivity.
Defined.
